(** * Structural validation of a configuration against a template

    A shallow embedding of [validate_config] (src/main.py, lines 146-194)
    together with the Python operations it relies on ([in], subscripting,
    iteration, [type], [isinstance], [logging.error], [logging.warning]).

    Values are the objects [json.load] / [yaml.safe_load] hand to the
    validator.  Mapping keys are text; dictionaries keep insertion order and
    are represented by association lists (first binding wins on lookup; a
    Python dict never holds a key twice, see [wf_value]).  Strings are
    sequences of 8-bit characters.  The calls to the logging module are
    recorded, in order, as the findings of the run. *)

From Stdlib Require Import List String Ascii ZArith Bool Arith Lia.
From Stdlib Require Import Floats.SpecFloat.
Import ListNotations.
Open Scope string_scope.
Open Scope list_scope.

(** ** Values and their runtime types *)

Unset Elimination Schemes.
Inductive value : Type :=
| VNone
| VBool (b : bool)
| VInt (n : Z)
| VFloat (x : spec_float)
| VStr (s : string)
| VList (items : list value)
| VDict (entries : list (string * value)).
Set Elimination Schemes.

Definition dict : Type := list (string * value).

(** The result of Python's [type(v)]. *)
Inductive pytype : Type :=
| NoneType | bool_t | int_t | float_t | str_t | list_t | dict_t.

Definition type_of (v : value) : pytype :=
  match v with
  | VNone => NoneType
  | VBool _ => bool_t
  | VInt _ => int_t
  | VFloat _ => float_t
  | VStr _ => str_t
  | VList _ => list_t
  | VDict _ => dict_t
  end.

Definition pytype_eqb (a b : pytype) : bool :=
  match a, b with
  | NoneType, NoneType | bool_t, bool_t | int_t, int_t | float_t, float_t
  | str_t, str_t | list_t, list_t | dict_t, dict_t => true
  | _, _ => false
  end.

(** [isinstance(v, dict)] *)
Definition isinstance_dict (v : value) : bool :=
  match v with VDict _ => true | _ => false end.

(** ** Dictionaries *)

Fixpoint lookup (key : string) (d : dict) : option value :=
  match d with
  | [] => None
  | (k, v) :: rest => if String.eqb key k then Some v else lookup key rest
  end.

Definition mem (key : string) (d : dict) : bool :=
  match lookup key d with Some _ => true | None => false end.

Definition keys (d : dict) : list string := map fst d.

Fixpoint nodupb (l : list string) : bool :=
  match l with
  | [] => true
  | k :: rest => negb (existsb (String.eqb k) rest) && nodupb rest
  end.

(** Values a Python program can hold: no dictionary binds a key twice. *)
Fixpoint wf_value (v : value) : bool :=
  match v with
  | VList items => forallb wf_value items
  | VDict entries =>
      nodupb (map fst entries) && forallb (fun kv => wf_value (snd kv)) entries
  | _ => true
  end.

(** ** Log records

    One constructor per message of [validate_config]; the level is the one
    of the logging call that emits it. *)

Inductive levelname : Type := ERROR | WARNING.

Inductive message : Type :=
| MissingStrictMsg (key : string)
    (* "Missing key '{key}' in configuration (strict mode)." *)
| MissingMsg (key : string)
    (* "Missing key '{key}' in configuration." *)
| ExpectedDictMsg (key : string) (got : pytype)
    (* "Type mismatch for key '{key}': Expected dict, got {type(config_value)}." *)
| TypeMismatchMsg (key : string) (expected_type actual_type : pytype)
    (* "Type mismatch for key '{key}': Expected {expected_type}, got {actual_type}." *)
| ExtraKeyMsg (key : value)
    (* "Extra key '{key}' found in configuration that isn't defined in the template." *).

Definition finding : Type := (levelname * message)%type.

Inductive kind : Type := MissingKey | ExtraKey | TypeMismatch.

Definition kind_of (f : finding) : kind :=
  match snd f with
  | MissingStrictMsg _ | MissingMsg _ => MissingKey
  | ExpectedDictMsg _ _ | TypeMismatchMsg _ _ _ => TypeMismatch
  | ExtraKeyMsg _ => ExtraKey
  end.

Definition is_error (f : finding) : bool :=
  match fst f with ERROR => true | WARNING => false end.

Definition is_kind (k : kind) (f : finding) : bool :=
  match k, kind_of f with
  | MissingKey, MissingKey | ExtraKey, ExtraKey | TypeMismatch, TypeMismatch => true
  | _, _ => false
  end.

Definition is_missing_warning (f : finding) : bool :=
  negb (is_error f) && is_kind MissingKey f.

Definition count (p : finding -> bool) (log : list finding) : nat :=
  List.length (filter p log).

(** ** Exceptions and the logging monad

    A computation emits log records and then either returns or raises; the
    records emitted before an exception stay emitted. *)

Inductive exn : Type := AttributeError | TypeError | KeyError.

Definition M (A : Type) : Type := (list finding * (exn + A))%type.

Definition ret {A} (a : A) : M A := ([], inr a).
Definition raise {A} (e : exn) : M A := ([], inl e).
Definition logging (lvl : levelname) (msg : message) : M unit :=
  ([(lvl, msg)], inr tt).
Definition bind {A B} (m : M A) (k : A -> M B) : M B :=
  match m with
  | (l, inl e) => (l, inl e)
  | (l, inr a) => let (l', r) := k a in (l ++ l', r)
  end.

Notation "x <- m ;; k" := (bind m (fun x => k))
  (at level 61, m at next level, right associativity).
Notation "m ;;; k" := (bind m (fun _ => k))
  (at level 61, right associativity).

(** ** Python operations on values *)

Fixpoint is_substring (needle hay : string) : bool :=
  String.prefix needle hay ||
  match hay with
  | EmptyString => false
  | String _ hay' => is_substring needle hay'
  end.

Definition str_eq_value (key : string) (x : value) : bool :=
  match x with VStr s => String.eqb key s | _ => false end.

(** [key in container] for a text key. *)
Definition contains (container : value) (key : string) : M bool :=
  match container with
  | VDict d => ret (mem key d)
  | VList items => ret (existsb (str_eq_value key) items)
  | VStr s => ret (is_substring key s)
  | VNone | VBool _ | VInt _ | VFloat _ => raise TypeError
  end.

(** [container[key]] for a text key. *)
Definition getitem (container : value) (key : string) : M value :=
  match container with
  | VDict d =>
      match lookup key d with
      | Some v => ret v
      | None => raise KeyError
      end
  | _ => raise TypeError
  end.

(** The objects [for key in container] binds [key] to. *)
Definition iter (container : value) : M (list value) :=
  match container with
  | VDict d => ret (map (fun kv => VStr (fst kv)) d)
  | VList items => ret items
  | VStr s =>
      ret (map (fun ch => VStr (String ch EmptyString)) (list_ascii_of_string s))
  | VNone | VBool _ | VInt _ | VFloat _ => raise TypeError
  end.

(** [key in d] for a dictionary [d] and any object [key]: lists and
    dictionaries are unhashable, and only text equals a text key. *)
Definition dict_contains (d : dict) (key : value) : M bool :=
  match key with
  | VStr s => ret (mem s d)
  | VList _ | VDict _ => raise TypeError
  | VNone | VBool _ | VInt _ | VFloat _ => ret false
  end.

(** ** [validate_config] *)

Section Body.
(** The recursive call [validate_config(_, _, strict, ignore_missing)]. *)
Variable rec : value -> value -> M bool.
Variable config_data : value.
Variables strict ignore_missing : bool.

(** One iteration of the loop over [template_data.items()] (lines 162-186);
    [valid] is the flag before the iteration, the result the flag after. *)
Definition check_entry (key : string) (template_value : value) (valid : bool)
  : M bool :=
  present <- contains config_data key ;;
  if negb present then
    if strict then
      logging ERROR (MissingStrictMsg key) ;;; ret false
    else if negb ignore_missing then
      logging WARNING (MissingMsg key) ;;; ret valid
    else ret valid
  else
    config_value <- getitem config_data key ;;
    if isinstance_dict template_value then
      if negb (isinstance_dict config_value) then
        logging ERROR (ExpectedDictMsg key (type_of config_value)) ;;;
        ret false
      else
        ok <- rec config_value template_value ;;
        ret (if negb ok then false else valid)
    else
      let expected_type := type_of template_value in
      let actual_type := type_of config_value in
      if negb (pytype_eqb expected_type actual_type) then
        logging ERROR (TypeMismatchMsg key expected_type actual_type) ;;;
        ret false
      else ret valid.

(** The loop of lines 161-186. *)
Fixpoint template_loop (items : dict) (valid : bool) : M bool :=
  match items with
  | [] => ret valid
  | (key, template_value) :: rest =>
      valid' <- check_entry key template_value valid ;;
      template_loop rest valid'
  end.
End Body.

(** The loop of lines 190-192, over the objects [config_data] iterates. *)
Fixpoint extra_loop (template_data : dict) (config_keys : list value) : M unit :=
  match config_keys with
  | [] => ret tt
  | key :: rest =>
      known <- dict_contains template_data key ;;
      (if negb known then logging WARNING (ExtraKeyMsg key) else ret tt) ;;;
      extra_loop template_data rest
  end.

Fixpoint validate_config (config_data template_data : value)
    (strict ignore_missing : bool) {struct template_data} : M bool :=
  match template_data with
  | VDict items =>
      valid <- template_loop
                 (fun cv tv => validate_config cv tv strict ignore_missing)
                 config_data strict ignore_missing items true ;;
      (if negb strict && negb ignore_missing then
         config_keys <- iter config_data ;;
         extra_loop items config_keys
       else ret tt) ;;;
      ret valid
  | _ => raise AttributeError      (* no attribute [items] *)
  end.

(** Projections of a run. *)
Definition findings (config_data template_data : value) (s im : bool)
  : list finding :=
  fst (validate_config config_data template_data s im).

Definition outcome (config_data template_data : value) (s im : bool)
  : exn + bool :=
  snd (validate_config config_data template_data s im).

(** ** Runs on dictionaries, in closed form

    When both arguments are dictionaries no Python operation of
    [validate_config] can raise; [walk] lists the records such a run emits
    and the flag it returns.  It is only used to reason about
    [validate_config], see [validate_config_dict]. *)

Definition missing_out (s im : bool) (key : string) : list finding * bool :=
  if s then ([(ERROR, MissingStrictMsg key)], false)
  else if im then ([], true)
  else ([(WARNING, MissingMsg key)], true).

Definition scalar_out (key : string) (tv cv : value) : list finding * bool :=
  if pytype_eqb (type_of tv) (type_of cv) then ([], true)
  else ([(ERROR, TypeMismatchMsg key (type_of tv) (type_of cv))], false).

Definition extra_keys (c t : dict) : list finding :=
  map (fun k => (WARNING, ExtraKeyMsg (VStr k)))
      (filter (fun k => negb (mem k t)) (keys c)).

Definition extras (s im : bool) (c t : dict) : list finding :=
  if negb s && negb im then extra_keys c t else [].

Section Entry.
Variable walk_rec : value -> dict -> list finding * bool.
Variables s im : bool.

Definition entry_out (c : dict) (kv : string * value) : list finding * bool :=
  match lookup (fst kv) c with
  | None => missing_out s im (fst kv)
  | Some cv =>
      if isinstance_dict (snd kv) then
        match cv with
        | VDict c' => walk_rec (snd kv) c'
        | _ => ([(ERROR, ExpectedDictMsg (fst kv) (type_of cv))], false)
        end
      else scalar_out (fst kv) (snd kv) cv
  end.
End Entry.

Fixpoint walk (s im : bool) (t : value) (c : dict) {struct t}
  : list finding * bool :=
  match t with
  | VDict items =>
      (flat_map (fun kv => fst (entry_out (walk s im) s im c kv)) items
         ++ extras s im c items,
       forallb (fun kv => snd (entry_out (walk s im) s im c kv)) items)
  | _ => ([], true)
  end.

(** [rec] computes, on dictionaries and the template [tv], what [walk] lists. *)
Definition agrees (s im : bool) (rec : value -> value -> M bool) (tv : value)
  : Prop :=
  forall c', rec (VDict c') tv
             = (fst (walk s im tv c'), inr (snd (walk s im tv c'))).

(** The pair of dictionaries the recursion reaches by following [path]: at
    each step the key is bound to a dictionary on both sides, which is when
    line 178 calls [validate_config] on the two. *)
Fixpoint descend (path : list string) (c t : dict) : option (dict * dict) :=
  match path with
  | [] => Some (c, t)
  | key :: rest =>
      match lookup key t, lookup key c with
      | Some (VDict t'), Some (VDict c') => descend rest c' t'
      | _, _ => None
      end
  end.

Definition no_error (f : finding) : bool := negb (is_error f).

(** Which severity each kind of finding carries under strictness [s]. *)
Definition severity_rule (s : bool) (f : finding) : bool :=
  Bool.eqb (is_error f)
    match kind_of f with
    | MissingKey => s
    | TypeMismatch => true
    | ExtraKey => false
    end.

(** What line 192 logs for the text key [k], when the pass of lines 188-192
    runs at all. *)
Definition extra_record (s im : bool) (k : string) : list finding :=
  if negb s && negb im then [(WARNING, ExtraKeyMsg (VStr k))] else [].

(** [update key f d] rebinds the first binding of [key] in [d] to the image
    of its value under [f]; [set_at path new c] puts the dictionary [new] in
    place of the dictionary that [path] leads to inside [c].  They build the
    configurations that differ from [c] at one nested level. *)
Fixpoint update (key : string) (f : value -> value) (d : dict) : dict :=
  match d with
  | [] => []
  | (k, v) :: rest =>
      if String.eqb key k then (k, f v) :: rest
      else (k, v) :: update key f rest
  end.

Fixpoint set_at (path : list string) (new c : dict) : dict :=
  match path with
  | [] => new
  | key :: rest =>
      update key
        (fun v => match v with
                  | VDict c' => VDict (set_at rest new c')
                  | _ => v
                  end)
        c
  end.

(** The values on which [key in v] and [for key in v] are defined. *)
Definition iterable (v : value) : bool :=
  match v with
  | VDict _ | VList _ | VStr _ => true
  | VNone | VBool _ | VInt _ | VFloat _ => false
  end.

(** ** The command-line program: [load_file], [lint_file], [main]

    The file system, the two parsers and the child processes are outside the
    program; they are the fields of [world].  A field answers the same call
    the same way throughout one run. *)

(** Exceptions of the program, by the class the [except] clauses test. *)
Inductive error : Type :=
| FileNotFoundError
| JSONDecodeError
| YAMLError
| ValueError (msg : string)
| OtherException (name : string)
| ValidationError (e : exn).        (* raised inside [validate_config] *)

Record world : Type := {
  (* [open(file_path, 'r')] and the text read from it *)
  open_read : string -> error + string;
  (* [json.load] and [yaml.safe_load] on that text *)
  json_load : string -> error + value;
  yaml_safe_load : string -> error + value;
  (* [subprocess.run(argv, ...)]: the return code and the captured stderr *)
  subprocess_run : list string -> error + (Z * string)
}.

(** The parsed command line, [args] of [main] (lines 28-56). *)
Record Namespace : Type := {
  config_file : string;
  template_file : string;
  file_type : option string;
  lint : bool;
  strict : bool;
  ignore_missing : bool
}.

(** The messages of [load_file], [lint_file] and [main]; [logging.info] for
    [LintPassedMsg] and [ValidMsg], [logging.error] for the others, and the
    records of [validate_config] as they are. *)
Inductive record : Type :=
| ValidationMsg (f : finding)
| FileNotFoundMsg (file_path : string)          (* "File not found: ..." *)
| JSONDecodeMsg (file_path : string)            (* "JSON decoding error in ..." *)
| YAMLErrorMsg (file_path : string)             (* "YAML decoding error in ..." *)
| LoadErrorMsg (file_path : string) (e : error) (* "Error loading file ..." *)
| LintFailedMsg (linter file_path stderr : string)
| LintPassedMsg (linter file_path : string)
| UnsupportedTypeMsg (ft : string)              (* "Unsupported file type: ..." *)
| LinterNotFoundMsg                             (* "Linter not found: ..." *)
| LintErrorMsg (e : error)                      (* "Error during linting: ..." *)
| LintAbortMsg                 (* "Linting failed. Aborting validation." *)
| ValidMsg                     (* "Configuration is valid." *)
| InvalidMsg                   (* "Configuration is invalid." *)
| UnexpectedMsg (e : error).   (* "An unexpected error occurred: ..." *)

(** What a run does that can be seen from outside, in order. *)
Inductive event : Type :=
| LogRecord (r : record)
| RunProcess (argv : list string)
| OpenFile (file_path : string).

(** A computation stops early by raising an exception or by [sys.exit]
    ([SystemExit] is not an [Exception]: [except Exception] lets it pass). *)
Inductive stop : Type :=
| Raised (e : error)
| Exit (code : Z).

Definition P (A : Type) : Type := (list event * (stop + A))%type.

Definition pret {A} (a : A) : P A := ([], inr a).
Definition praise {A} (e : error) : P A := ([], inl (Raised e)).
Definition sys_exit {A} (code : Z) : P A := ([], inl (Exit code)).
Definition emit (ev : event) : P unit := ([ev], inr tt).
Definition pbind {A B} (m : P A) (k : A -> P B) : P B :=
  match m with
  | (l, inl st) => (l, inl st)
  | (l, inr a) => let (l', r) := k a in (l ++ l', r)
  end.

(** [try: m  except Exception as e: h e] *)
Definition try_except {A} (m : P A) (h : error -> P A) : P A :=
  match m with
  | (l, inl (Raised e)) => let (l', r) := h e in (l ++ l', r)
  | _ => m
  end.

Notation "x <~ m ;; k" := (pbind m (fun x => k))
  (at level 61, m at next level, right associativity).
Notation "m >> k" := (pbind m (fun _ => k))
  (at level 61, right associativity).

Definition external {A} (r : error + A) : P A :=
  match r with
  | inl e => praise e
  | inr a => pret a
  end.

(** A call of [validate_config] inside the program. *)
Definition validation (m : M bool) : P bool :=
  (map (fun f => LogRecord (ValidationMsg f)) (fst m),
   match snd m with
   | inl e => inl (Raised (ValidationError e))
   | inr b => inr b
   end).

(** [s.endswith(suffix)] *)
Fixpoint endswith (s suffix : string) : bool :=
  String.eqb s suffix ||
  match s with
  | EmptyString => false
  | String _ s' => endswith s' suffix
  end.

(** [load_file], lines 61-104. *)
Definition load_file (w : world) (file_path : string) (file_type : option string)
  : P value :=
  try_except
    (emit (OpenFile file_path) >>
     f <~ external (open_read w file_path) ;;
     file_type <~
       match file_type with
       | None =>
           if endswith file_path ".json" then pret "json"
           else if endswith file_path ".yaml" || endswith file_path ".yml"
                then pret "yaml"
           else praise (ValueError
                  "Could not infer file type. Please specify using --file_type.")
       | Some ft => pret ft
       end ;;
     if String.eqb file_type "json" then external (json_load w f)
     else if String.eqb file_type "yaml" then external (yaml_safe_load w f)
     else praise (ValueError "Invalid file type. Must be 'json' or 'yaml'."))
    (fun e =>
       emit (LogRecord
                  match e with
                  | FileNotFoundError => FileNotFoundMsg file_path
                  | JSONDecodeError => JSONDecodeMsg file_path
                  | YAMLError => YAMLErrorMsg file_path
                  | _ => LoadErrorMsg file_path e
                  end) >>
       praise e).

(** The two branches of [lint_file] that run a linter (lines 120-126 and
    128-134). *)
Definition run_linter (w : world) (linter : string) (argv : list string)
    (file_path : string) : P bool :=
  emit (RunProcess argv) >>
  result <~ external (subprocess_run w argv) ;;
  if negb (Z.eqb (fst result) 0) then
    emit (LogRecord (LintFailedMsg linter file_path (snd result))) >>
    pret false
  else
    emit (LogRecord (LintPassedMsg linter file_path)) >>
    pret true.

(** [lint_file], lines 107-143. *)
Definition lint_file (w : world) (file_path file_type : string) : P bool :=
  try_except
    (if String.eqb file_type "yaml" then
       run_linter w "yamllint" ["yamllint"; file_path] file_path
     else if String.eqb file_type "json" then
       run_linter w "jsonlint" ["jsonlint"; "-q"; file_path] file_path
     else
       emit (LogRecord (UnsupportedTypeMsg file_type)) >>
       pret false)
    (fun e =>
       match e with
       | FileNotFoundError => emit (LogRecord LinterNotFoundMsg) >> pret false
       | _ => emit (LogRecord (LintErrorMsg e)) >> pret false
       end).

(** [main] from the linter on (lines 216-231), with the file type settled. *)
Definition main_steps (w : world) (args : Namespace) (file_type : string)
  : P unit :=
  (if lint args then
     ok <~ lint_file w (config_file args) file_type ;;
     if negb ok then
       emit (LogRecord LintAbortMsg) >> sys_exit 1
     else pret tt
   else pret tt) >>
  config_data <~ load_file w (config_file args) (Some file_type) ;;
  template_data <~ load_file w (template_file args) (Some file_type) ;;
  ok <~ validation (validate_config config_data template_data
                      (strict args) (ignore_missing args)) ;;
  if ok then emit (LogRecord ValidMsg)
  else emit (LogRecord InvalidMsg) >> sys_exit 1.

(** [main], lines 197-235, after [parser.parse_args()] has returned [args];
    [parser.error] exits with status 2. *)
Definition main (w : world) (args : Namespace) : P unit :=
  try_except
    (file_type <~
       match file_type args with
       | None =>
           if endswith (config_file args) ".json" then pret "json"
           else if endswith (config_file args) ".yaml"
                   || endswith (config_file args) ".yml"
                then pret "yaml"
           else sys_exit 2
       | Some ft => pret ft
       end ;;
     main_steps w args file_type)
    (fun e => emit (LogRecord (UnexpectedMsg e)) >> sys_exit 1).


Definition trace {A} (r : P A) : list event := fst r.

(** The file type [main] goes on with (lines 206-214); [None] when it calls
    [parser.error]. *)
Definition main_file_type (args : Namespace) : option string :=
  match file_type args with
  | Some ft => Some ft
  | None =>
      if endswith (config_file args) ".json" then Some "json"
      else if endswith (config_file args) ".yaml"
              || endswith (config_file args) ".yml"
           then Some "yaml"
      else None
  end.

Definition is_log (ev : event) : bool :=
  match ev with LogRecord _ => true | _ => false end.

Definition is_open (ev : event) : bool :=
  match ev with OpenFile _ => true | _ => false end.

(** A small world for the examples: two JSON files, a linter that passes. *)
Definition demo_world : world := {|
  open_read := fun p =>
    if String.eqb p "cfg.json" then inr "{port: 443}"
    else if String.eqb p "tpl.json" then inr "{port: 0}"
    else inl FileNotFoundError;
  json_load := fun text =>
    if String.eqb text "{port: 443}" then inr (VDict [("port", VInt 443)])
    else if String.eqb text "{port: 0}" then inr (VDict [("port", VInt 0)])
    else inl JSONDecodeError;
  yaml_safe_load := fun _ => inl YAMLError;
  subprocess_run := fun _ => inr (0%Z, "")
|}.

Definition demo_args : Namespace := {|
  config_file := "cfg.json";
  template_file := "tpl.json";
  file_type := None;
  lint := true;
  strict := false;
  ignore_missing := false
|}.

Fixpoint last_char (s : string) : option ascii :=
  match s with
  | EmptyString => None
  | String ch EmptyString => Some ch
  | String _ s' => last_char s'
  end.

(** The suffixes [load_file] knows, with the file type each stands for
    (lines 80-83). *)
Definition known_suffixes : list (string * string) :=
  [(".json", "json"); (".yaml", "yaml"); (".yml", "yaml")].

(** [demo_world] with a linter that reports errors, and with a template
    file whose root is a list. *)
Definition strict_lint_world : world := {|
  open_read := open_read demo_world;
  json_load := json_load demo_world;
  yaml_safe_load := yaml_safe_load demo_world;
  subprocess_run := fun _ => inr (1%Z, "syntax error")
|}.

Definition list_template_world : world := {|
  open_read := open_read demo_world;
  json_load := fun text =>
    if String.eqb text "{port: 0}" then inr (VList [VInt 0])
    else json_load demo_world text;
  yaml_safe_load := yaml_safe_load demo_world;
  subprocess_run := subprocess_run demo_world
|}.

(** [args] with the file type written out. *)
Definition with_file_type (args : Namespace) (ft : string) : Namespace := {|
  config_file := config_file args;
  template_file := template_file args;
  file_type := Some ft;
  lint := lint args;
  strict := strict args;
  ignore_missing := ignore_missing args
|}.

(** The events of the linter stage of [main]. *)
Definition linted (w : world) (args : Namespace) (ft : string) : list event :=
  if lint args then trace (lint_file w (config_file args) ft) else [].

(** ** What the flag and the log of a dictionary run amount to *)

(** The configuration dictionary has the shape the template asks for: every
    key of the template is bound (or, outside strict mode, absent), to a
    dictionary of the right shape where the template has a dictionary, and
    to a value of the template value's type otherwise. *)
Fixpoint conforms (strict_mode : bool) (template : value) (config : dict)
    {struct template} : bool :=
  match template with
  | VDict items =>
      forallb
        (fun kv =>
           match lookup (fst kv) config with
           | None => negb strict_mode
           | Some cv =>
               if isinstance_dict (snd kv) then
                 match cv with
                 | VDict c' => conforms strict_mode (snd kv) c'
                 | _ => false
                 end
               else pytype_eqb (type_of (snd kv)) (type_of cv)
           end)
        items
  | _ => true
  end.

(** What a record of the default run becomes under the policy [(s, im)]. *)
Definition under_policy (s im : bool) (f : finding) : list finding :=
  match f with
  | (WARNING, MissingMsg key) =>
      if s then [(ERROR, MissingStrictMsg key)]
      else if im then [] else [f]
  | (WARNING, ExtraKeyMsg _) => if negb s && negb im then [f] else []
  | _ => [f]
  end.

(** A value with everything but its keys and runtime types forgotten. *)
Fixpoint shape_of (v : value) : value :=
  match v with
  | VNone => VNone
  | VBool _ => VBool false
  | VInt _ => VInt 0
  | VFloat _ => VFloat (S754_zero false)
  | VStr _ => VStr ""
  | VList _ => VList []
  | VDict entries => VDict (map (fun kv => (fst kv, shape_of (snd kv))) entries)
  end.

(** ** Induction over values *)

Lemma value_induction (P : value -> Prop)
  (HNone : P VNone)
  (HBool : forall b, P (VBool b))
  (HInt : forall n, P (VInt n))
  (HFloat : forall x, P (VFloat x))
  (HStr : forall s, P (VStr s))
  (HList : forall items, Forall P items -> P (VList items))
  (HDict : forall entries,
      Forall (fun kv => P (snd kv)) entries -> P (VDict entries)) :
  forall v, P v.
Proof.
  fix IH 1.
  intros [ | b | n | x | s | items | entries ].
  - exact HNone.
  - exact (HBool b).
  - exact (HInt n).
  - exact (HFloat x).
  - exact (HStr s).
  - apply HList.
    induction items as [ | a l IHl ]; constructor; [ apply IH | exact IHl ].
  - apply HDict.
    induction entries as [ | [k a] l IHl ]; constructor; [ apply IH | exact IHl ].
Qed.

(** ** The dictionary case of [validate_config] *)

Lemma bind_ok {A B} (l : list finding) (a : A) (k : A -> M B) :
  bind (l, inr a) k = (l ++ fst (k a), snd (k a)).
Proof. unfold bind. destruct (k a); reflexivity. Qed.

Lemma bind_ret {A B} (a : A) (k : A -> M B) : bind (ret a) k = k a.
Proof. unfold bind, ret. destruct (k a); reflexivity. Qed.

Lemma bind_logging {B} (lvl : levelname) (msg : message) (k : unit -> M B) :
  bind (logging lvl msg) k = ((lvl, msg) :: fst (k tt), snd (k tt)).
Proof. unfold logging. rewrite bind_ok. reflexivity. Qed.

Lemma contains_dict (c : dict) (key : string) :
  contains (VDict c) key = ret (mem key c).
Proof. reflexivity. Qed.

Lemma extra_loop_dict (t c : dict) :
  extra_loop t (map (fun kv => VStr (fst kv)) c) = (extra_keys c t, inr tt).
Proof.
  unfold extra_keys, keys.
  induction c as [ | [k v] c IH ]; [ reflexivity | ].
  cbn [map extra_loop dict_contains fst filter].
  rewrite bind_ret.
  destruct (mem k t); cbn [negb].
  - rewrite bind_ret, IH. reflexivity.
  - rewrite bind_logging, IH. reflexivity.
Qed.

Section Bridge.
Variables s im : bool.
Variable rec : value -> value -> M bool.

Lemma check_entry_dict (c : dict) (key : string) (tv : value) (valid : bool) :
  (isinstance_dict tv = true -> agrees s im rec tv) ->
  check_entry rec (VDict c) s im key tv valid
  = (fst (entry_out (walk s im) s im c (key, tv)),
     inr (valid && snd (entry_out (walk s im) s im c (key, tv)))).
Proof.
  intros Hrec. unfold check_entry, entry_out. cbn [fst snd].
  rewrite contains_dict, bind_ret.
  unfold mem, getitem. destruct (lookup key c) as [cv | ]; cbn [negb].
  - rewrite bind_ret.
    destruct (isinstance_dict tv) eqn:Htv.
    + destruct cv; cbn [isinstance_dict negb type_of];
        try (cbn; rewrite andb_false_r; reflexivity).
      rewrite (Hrec eq_refl entries), bind_ok. cbn [ret fst snd].
      rewrite app_nil_r. destruct (snd (walk s im tv entries)), valid; reflexivity.
    + unfold scalar_out. destruct (pytype_eqb (type_of tv) (type_of cv)); cbn.
      * rewrite andb_true_r. reflexivity.
      * rewrite andb_false_r. reflexivity.
  - unfold missing_out. destruct s; cbn.
    + rewrite andb_false_r. reflexivity.
    + destruct im; cbn; rewrite andb_true_r; reflexivity.
Qed.

Lemma template_loop_dict (c : dict) (items : dict) :
  Forall (fun kv => isinstance_dict (snd kv) = true -> agrees s im rec (snd kv))
         items ->
  forall valid,
    template_loop rec (VDict c) s im items valid
    = (flat_map (fun kv => fst (entry_out (walk s im) s im c kv)) items,
       inr (valid &&
            forallb (fun kv => snd (entry_out (walk s im) s im c kv)) items)).
Proof.
  induction 1 as [ | [key tv] items Hhd _ IH ]; intros valid.
  - cbn. rewrite andb_true_r. reflexivity.
  - cbn [template_loop flat_map forallb].
    cbn [snd] in Hhd.
    rewrite (check_entry_dict c key tv valid Hhd), bind_ok, IH.
    cbn [fst snd]. rewrite andb_assoc. reflexivity.
Qed.
End Bridge.

Lemma validate_config_dict (s im : bool) (t c : dict) :
  validate_config (VDict c) (VDict t) s im
  = (fst (walk s im (VDict t) c), inr (snd (walk s im (VDict t) c))).
Proof.
  revert c.
  enough (H : forall tv, isinstance_dict tv = true ->
            agrees s im (fun cv tv' => validate_config cv tv' s im) tv).
  { intros c. apply (H (VDict t) eq_refl). }
  induction tv as [ | | | | | | entries IH ] using value_induction;
    try discriminate.
  intros _ c. cbn [validate_config walk fst snd].
  rewrite template_loop_dict by exact IH.
  rewrite bind_ok. cbn [andb fst snd iter]. unfold extras.
  destruct (negb s && negb im).
  - rewrite bind_ret, extra_loop_dict, bind_ok.
    cbn. rewrite app_nil_r. reflexivity.
  - cbn. rewrite !app_nil_r. reflexivity.
Qed.

(** ** The scenarios of the specification, run on the embedding *)

Example scenario_A :
  validate_config (VDict [("port", VStr "8080")])
                  (VDict [("port", VInt 8080); ("host", VStr "x")]) false false
  = ([(ERROR, TypeMismatchMsg "port" int_t str_t); (WARNING, MissingMsg "host")],
     inr false).
Proof. reflexivity. Qed.

Example scenario_B :
  validate_config (VDict [("port", VStr "8080")])
                  (VDict [("port", VInt 8080); ("host", VStr "x")]) true false
  = ([(ERROR, TypeMismatchMsg "port" int_t str_t);
      (ERROR, MissingStrictMsg "host")],
     inr false).
Proof. reflexivity. Qed.

Example scenario_C :
  validate_config (VDict [("a", VDict [("b", VInt 1); ("c", VInt 2)])])
                  (VDict [("a", VDict [("b", VInt 1)])]) false false
  = ([(WARNING, ExtraKeyMsg (VStr "c"))], inr true).
Proof. reflexivity. Qed.

Example scenario_D :
  validate_config (VDict [("a", VDict [("x", VInt 1)])])
                  (VDict [("a", VInt 1)]) false false
  = ([(ERROR, TypeMismatchMsg "a" int_t dict_t)], inr false).
Proof. reflexivity. Qed.

(** Nested findings come depth first, before the later keys of the parent
    and before the parent's extra keys. *)
Example depth_first_order :
  validate_config
    (VDict [("z", VInt 0); ("a", VDict [("y", VInt 0)]); ("b", VStr "s")])
    (VDict [("a", VDict [("x", VInt 1)]); ("b", VInt 1)]) false false
  = ([(WARNING, MissingMsg "x"); (WARNING, ExtraKeyMsg (VStr "y"));
      (ERROR, TypeMismatchMsg "b" int_t str_t);
      (WARNING, ExtraKeyMsg (VStr "z"))],
     inr false).
Proof. reflexivity. Qed.

(** ** Reasoning about dictionary runs *)

Lemma findings_dict (s im : bool) (c t : dict) :
  findings (VDict c) (VDict t) s im = fst (walk s im (VDict t) c).
Proof. unfold findings. rewrite validate_config_dict. reflexivity. Qed.

Lemma outcome_dict (s im : bool) (c t : dict) :
  outcome (VDict c) (VDict t) s im = inr (snd (walk s im (VDict t) c)).
Proof. unfold outcome. rewrite validate_config_dict. reflexivity. Qed.

(** Induction along the recursive calls of a dictionary run. *)
Lemma nested_induction (P : dict -> dict -> Prop) :
  (forall c t,
      (forall key t' c',
          In (key, VDict t') t -> lookup key c = Some (VDict c') -> P c' t') ->
      P c t) ->
  forall c t, P c t.
Proof.
  intros step c t. revert c.
  enough (H : forall tv t0, tv = VDict t0 -> forall c, P c t0)
    by exact (H (VDict t) t eq_refl).
  induction tv as [ | | | | | | entries IH ] using value_induction;
    try discriminate.
  intros t0 [= <-] c. apply step. intros key t' c' Hin _.
  rewrite Forall_forall in IH. exact (IH _ Hin t' eq_refl c').
Qed.

Lemma entry_out_cases (Q : list finding * bool -> Prop) (s im : bool)
    (c : dict) (key : string) (tv : value) :
  (lookup key c = None -> Q (missing_out s im key)) ->
  (forall cv, lookup key c = Some cv -> isinstance_dict tv = false ->
              Q (scalar_out key tv cv)) ->
  (forall cv t', lookup key c = Some cv -> tv = VDict t' ->
                 isinstance_dict cv = false ->
                 Q ([(ERROR, ExpectedDictMsg key (type_of cv))], false)) ->
  (forall c' t', lookup key c = Some (VDict c') -> tv = VDict t' ->
                 Q (walk s im (VDict t') c')) ->
  Q (entry_out (walk s im) s im c (key, tv)).
Proof.
  intros Hmiss Hscalar Hshape Hnested. unfold entry_out. cbn [fst snd].
  destruct (lookup key c) as [cv | ]; [ | exact (Hmiss eq_refl) ].
  destruct tv; try exact (Hscalar cv eq_refl eq_refl).
  cbn [isinstance_dict].
  destruct cv; try exact (Hshape _ _ eq_refl eq_refl eq_refl).
  exact (Hnested _ _ eq_refl eq_refl).
Qed.

Lemma forallb_flat_map {A B} (p : B -> bool) (f : A -> list B) (l : list A) :
  forallb p (flat_map f l) = forallb (fun x => forallb p (f x)) l.
Proof.
  induction l as [ | x l IH ]; [ reflexivity | ].
  cbn. rewrite forallb_app, IH. reflexivity.
Qed.

Lemma forallb_ext_in {A} (f g : A -> bool) (l : list A) :
  (forall x, In x l -> f x = g x) -> forallb f l = forallb g l.
Proof.
  induction l as [ | x l IH ]; intros H; [ reflexivity | ].
  cbn. rewrite (H x (or_introl eq_refl)), IH; [ reflexivity | ].
  intros y Hy. apply H. right. exact Hy.
Qed.

Lemma forallb_extra_keys (p : finding -> bool) (c t : dict) :
  (forall key, p (WARNING, ExtraKeyMsg key) = true) ->
  forallb p (extra_keys c t) = true.
Proof.
  intros Hp. unfold extra_keys. apply forallb_forall.
  intros f Hf. apply in_map_iff in Hf. destruct Hf as (k & <- & _). apply Hp.
Qed.

Lemma forallb_extras (p : finding -> bool) (s im : bool) (c t : dict) :
  (forall key, p (WARNING, ExtraKeyMsg key) = true) ->
  forallb p (extras s im c t) = true.
Proof.
  intros Hp. unfold extras.
  destruct (negb s && negb im); [ apply forallb_extra_keys, Hp | reflexivity ].
Qed.

(** Every record of a dictionary run satisfies [p] as soon as the records
    the five logging calls can emit under the policy do. *)
Lemma forallb_findings (p : finding -> bool) (s im : bool) :
  (forall key, forallb p (fst (missing_out s im key)) = true) ->
  (forall key ty, p (ERROR, ExpectedDictMsg key ty) = true) ->
  (forall key ty ty', p (ERROR, TypeMismatchMsg key ty ty') = true) ->
  (forall c t, forallb p (extras s im c t) = true) ->
  forall c t, forallb p (fst (walk s im (VDict t) c)) = true.
Proof.
  intros Hmiss Hshape Hscalar Hextra.
  apply (nested_induction
           (fun c t => forallb p (fst (walk s im (VDict t) c)) = true)).
  intros c t IH. cbn [walk fst].
  rewrite forallb_app, Hextra, andb_true_r, forallb_flat_map.
  apply forallb_forall. intros [key tv] Hin.
  apply (entry_out_cases (fun o => forallb p (fst o) = true)).
  - intros _. apply Hmiss.
  - intros cv _ _. unfold scalar_out.
    destruct (pytype_eqb _ _); cbn; [ reflexivity | ].
    rewrite Hscalar. reflexivity.
  - intros cv t' _ _ _. cbn. rewrite Hshape. reflexivity.
  - intros c' t' Hc ->. exact (IH _ _ _ Hin Hc).
Qed.


Lemma walk_verdict (s im : bool) (c t : dict) :
  snd (walk s im (VDict t) c) = forallb no_error (fst (walk s im (VDict t) c)).
Proof.
  revert c t.
  apply (nested_induction
           (fun c t => snd (walk s im (VDict t) c)
                       = forallb no_error (fst (walk s im (VDict t) c)))).
  intros c t IH. cbn [walk fst snd].
  rewrite forallb_app, forallb_extras, andb_true_r by reflexivity.
  rewrite forallb_flat_map. apply forallb_ext_in. intros [key tv] Hin.
  apply (entry_out_cases (fun o => snd o = forallb no_error (fst o))).
  - intros _. unfold missing_out. destruct s, im; reflexivity.
  - intros cv _ _. unfold scalar_out. destruct (pytype_eqb _ _); reflexivity.
  - reflexivity.
  - intros c' t' Hc ->. exact (IH _ _ _ Hin Hc).
Qed.

(** C1. On dictionaries [validate_config] returns, and the flag it returns is
    true exactly when none of the records it logged has level ERROR; the
    ERROR records are the missing keys under strict mode and the two type
    mismatches, while a missing key outside strict mode and an extra key are
    WARNING records, which the flag ignores. *)
Theorem verdict_iff_no_error (c t : dict) (s im : bool) :
  outcome (VDict c) (VDict t) s im
  = inr (forallb no_error (findings (VDict c) (VDict t) s im))
  /\ forallb (severity_rule s) (findings (VDict c) (VDict t) s im) = true.
Proof.
  rewrite outcome_dict, findings_dict. split.
  - rewrite walk_verdict. reflexivity.
  - apply forallb_findings.
    + intros key. unfold missing_out. destruct s, im; reflexivity.
    + intros. destruct s; reflexivity.
    + intros. destruct s; reflexivity.
    + intros. apply forallb_extras. intros. destruct s; reflexivity.
Qed.

(** ** Findings at nested levels *)

Lemma lookup_In (key : string) (d : dict) (v : value) :
  lookup key d = Some v -> In (key, v) d.
Proof.
  induction d as [ | [k w] d IH ]; [ discriminate | ].
  cbn [lookup]. destruct (String.eqb key k) eqn:E.
  - apply String.eqb_eq in E. intros [= ->]. subst k. left. reflexivity.
  - intros H. right. exact (IH H).
Qed.

Lemma mem_lookup (key : string) (d : dict) :
  mem key d = true -> exists v, lookup key d = Some v.
Proof.
  unfold mem. destruct (lookup key d) as [v | ]; [ | discriminate ].
  intros _. exists v. reflexivity.
Qed.

Lemma mem_false_lookup (key : string) (d : dict) :
  mem key d = false -> lookup key d = None.
Proof. unfold mem. destruct (lookup key d); [ discriminate | reflexivity ]. Qed.

Lemma forallb_false_in {A} (f : A -> bool) (l : list A) (x : A) :
  In x l -> f x = false -> forallb f l = false.
Proof.
  intros Hin Hx. destruct (forallb f l) eqn:E; [ | reflexivity ].
  rewrite forallb_forall in E. rewrite (E x Hin) in Hx. discriminate.
Qed.

Lemma entry_out_nested (s im : bool) (c c' t' : dict) (key : string) :
  lookup key c = Some (VDict c') ->
  entry_out (walk s im) s im c (key, VDict t') = walk s im (VDict t') c'.
Proof. intros H. unfold entry_out. cbn [fst snd]. rewrite H. reflexivity. Qed.

Lemma entry_out_missing (s im : bool) (c : dict) (key : string) (tv : value) :
  lookup key c = None ->
  entry_out (walk s im) s im c (key, tv) = missing_out s im key.
Proof. intros H. unfold entry_out. cbn [fst snd]. rewrite H. reflexivity. Qed.

(** What an entry of the template contributes reaches the run's result. *)
Lemma entry_reaches (s im : bool) (c t : dict) (kv : string * value) :
  In kv t ->
  (forall f, In f (fst (entry_out (walk s im) s im c kv)) ->
             In f (fst (walk s im (VDict t) c)))
  /\ (snd (entry_out (walk s im) s im c kv) = false ->
      snd (walk s im (VDict t) c) = false).
Proof.
  intros Hin. cbn [walk fst snd]. split.
  - intros f Hf. apply in_or_app. left. apply in_flat_map.
    exists kv. split; assumption.
  - intros Hfalse. exact (forallb_false_in _ _ _ Hin Hfalse).
Qed.

(** What a nested call logs and decides reaches the result of the root. *)
Lemma descend_reaches (s im : bool) (path : list string) :
  forall c t c' t',
    descend path c t = Some (c', t') ->
    (forall f, In f (fst (walk s im (VDict t') c')) ->
               In f (fst (walk s im (VDict t) c)))
    /\ (snd (walk s im (VDict t') c') = false ->
        snd (walk s im (VDict t) c) = false).
Proof.
  induction path as [ | key path IH ]; intros c t c' t'; cbn [descend].
  - intros [= -> ->]. split; auto.
  - destruct (lookup key t) as [ [ | | | | | | t1 ] | ] eqn:Ht; try discriminate.
    destruct (lookup key c) as [ [ | | | | | | c1 ] | ] eqn:Hc; try discriminate.
    intros Hd. destruct (IH _ _ _ _ Hd) as [IHf IHv].
    destruct (entry_reaches s im c t (key, VDict t1) (lookup_In _ _ _ Ht))
      as [Hf Hv].
    rewrite (entry_out_nested s im c c1 t1 key Hc) in Hf, Hv.
    split; auto.
Qed.

(** C3. A template key missing from the configuration at any level the
    recursion reaches is, with both [strict] and [ignore_missing] set, logged
    as an ERROR (the strict-mode message), and the run returns false. *)
Theorem strict_overrides_ignore_missing
    (c t : dict) (path : list string) (c' t' : dict) (key : string) :
  descend path c t = Some (c', t') ->
  mem key t' = true ->
  mem key c' = false ->
  In (ERROR, MissingStrictMsg key) (findings (VDict c) (VDict t) true true)
  /\ kind_of (ERROR, MissingStrictMsg key) = MissingKey
  /\ outcome (VDict c) (VDict t) true true = inr false.
Proof.
  intros Hd Ht Hc. rewrite findings_dict, outcome_dict.
  destruct (descend_reaches true true path c t c' t' Hd) as [Hf Hv].
  destruct (mem_lookup _ _ Ht) as [tv Htv].
  destruct (entry_reaches true true c' t' (key, tv) (lookup_In _ _ _ Htv))
    as [Hf' Hv'].
  rewrite (entry_out_missing true true c' key tv (mem_false_lookup _ _ Hc))
    in Hf', Hv'.
  split; [ | split ].
  - apply Hf, Hf'. left. reflexivity.
  - reflexivity.
  - f_equal. apply Hv, Hv'. reflexivity.
Qed.

Lemma strict_overrides_ignore_missing_witness :
  In (ERROR, MissingStrictMsg "host")
     (findings (VDict [("db", VDict [("port", VInt 5432)])])
               (VDict [("db", VDict [("port", VInt 1); ("host", VStr "x")])])
               true true)
  /\ kind_of (ERROR, MissingStrictMsg "host") = MissingKey
  /\ outcome (VDict [("db", VDict [("port", VInt 5432)])])
             (VDict [("db", VDict [("port", VInt 1); ("host", VStr "x")])])
             true true = inr false.
Proof.
  apply (strict_overrides_ignore_missing
           [("db", VDict [("port", VInt 5432)])]
           [("db", VDict [("port", VInt 1); ("host", VStr "x")])]
           ["db"%string] [("port", VInt 5432)]
           [("port", VInt 1); ("host", VStr "x")] "host");
    reflexivity.
Defined.

Lemma count_zero (p : finding -> bool) (log : list finding) :
  forallb (fun f => negb (p f)) log = true -> count p log = 0.
Proof.
  unfold count. induction log as [ | f log IH ]; [ reflexivity | ].
  cbn. destruct (p f); cbn; [ discriminate | exact IH ].
Qed.

Lemma in_extra_keys (c t : dict) (key : string) :
  mem key c = true -> mem key t = false ->
  In (WARNING, ExtraKeyMsg (VStr key)) (extra_keys c t).
Proof.
  intros Hc Ht. unfold extra_keys.
  apply in_map with (f := fun k => (WARNING, ExtraKeyMsg (VStr k))).
  apply filter_In. split; [ | rewrite Ht; reflexivity ].
  destruct (mem_lookup _ _ Hc) as [v Hv].
  exact (in_map fst _ _ (lookup_In _ _ _ Hv)).
Qed.

(** C4. Under the default policy every level the recursion reaches logs a
    WARNING extra-key record for each key of its configuration dictionary
    that its template dictionary lacks; with [strict] or [ignore_missing] set
    a run logs no extra-key record at all. *)
Theorem extra_key_pass (c t : dict) :
  (forall path c' t' key,
      descend path c t = Some (c', t') ->
      mem key c' = true ->
      mem key t' = false ->
      In (WARNING, ExtraKeyMsg (VStr key))
         (findings (VDict c) (VDict t) false false))
  /\ (forall s im,
         s || im = true ->
         count (is_kind ExtraKey) (findings (VDict c) (VDict t) s im) = 0).
Proof.
  split.
  - intros path c' t' key Hd Hc Ht. rewrite findings_dict.
    apply (proj1 (descend_reaches false false path c t c' t' Hd)).
    cbn [walk fst]. apply in_or_app. right.
    exact (in_extra_keys c' t' key Hc Ht).
  - intros s im Hflag. rewrite findings_dict. apply count_zero.
    apply forallb_findings.
    + intros key. unfold missing_out. destruct s, im; reflexivity.
    + reflexivity.
    + reflexivity.
    + intros c0 t0. unfold extras.
      destruct s, im; try discriminate; reflexivity.
Qed.

Lemma extra_key_pass_witness :
  In (WARNING, ExtraKeyMsg (VStr "c"))
     (findings (VDict [("a", VDict [("b", VInt 1); ("c", VInt 2)])])
               (VDict [("a", VDict [("b", VInt 1)])]) false false)
  /\ count (is_kind ExtraKey)
           (findings (VDict [("a", VDict [("b", VInt 1); ("c", VInt 2)])])
                     (VDict [("a", VDict [("b", VInt 1)])]) true false) = 0.
Proof.
  destruct (extra_key_pass [("a", VDict [("b", VInt 1); ("c", VInt 2)])]
                           [("a", VDict [("b", VInt 1)])]) as [Hlevel Hoff].
  split.
  - apply (Hlevel ["a"%string] [("b", VInt 1); ("c", VInt 2)] [("b", VInt 1)]);
      reflexivity.
  - apply Hoff. reflexivity.
Defined.

(** C5. With [ignore_missing] set and [strict] unset a dictionary run logs
    no missing-key record, of either level, at any depth. *)
Theorem ignore_missing_suppresses (c t : dict) :
  count (is_kind MissingKey) (findings (VDict c) (VDict t) false true) = 0.
Proof.
  rewrite findings_dict. apply count_zero. apply forallb_findings; reflexivity.
Qed.

(** ** Type tags *)

Lemma pytype_eqb_refl (a : pytype) : pytype_eqb a a = true.
Proof. destruct a; reflexivity. Qed.

(** C6. When the template value under a key is not a dictionary and the
    configuration value under that key has the same runtime type, the loop
    iteration for the key logs nothing (so no type mismatch) and leaves the
    flag as it was, whatever the two values are; and a one-key configuration
    validates against a one-key template of the same type with an empty
    log. *)
Theorem type_only_comparison
    (rec : value -> value -> M bool) (c : dict) (s im : bool)
    (key : string) (tv cv : value) (valid : bool) :
  isinstance_dict tv = false ->
  type_of cv = type_of tv ->
  lookup key c = Some cv ->
  check_entry rec (VDict c) s im key tv valid = ([], inr valid)
  /\ validate_config (VDict [(key, cv)]) (VDict [(key, tv)]) s im
     = ([], inr true).
Proof.
  intros Hscalar Htype Hc. split.
  - unfold check_entry.
    rewrite contains_dict. unfold mem, getitem. rewrite Hc, !bind_ret.
    cbn [negb]. rewrite Hscalar, Htype, pytype_eqb_refl. reflexivity.
  - rewrite validate_config_dict. cbn [walk flat_map forallb fst snd].
    unfold entry_out, extras, extra_keys, mem.
    cbn [fst snd lookup keys map filter].
    rewrite String.eqb_refl, Hscalar. unfold scalar_out.
    rewrite Htype, pytype_eqb_refl. cbn.
    destruct (negb s && negb im); reflexivity.
Qed.

Lemma type_only_comparison_witness :
  check_entry (fun cv tv => validate_config cv tv false false)
              (VDict [("host", VStr "a"); ("port", VInt 443)])
              false false "port" (VInt 8080) true
  = ([], inr true)
  /\ validate_config (VDict [("port", VInt 443)]) (VDict [("port", VInt 8080)])
                     false false
     = ([], inr true).
Proof.
  apply (type_only_comparison
           (fun cv tv => validate_config cv tv false false)
           [("host", VStr "a"); ("port", VInt 443)] false false
           "port" (VInt 8080) (VInt 443) true);
    reflexivity.
Defined.

(** ** A tree against itself *)

Lemma existsb_eqb_In (k : string) (l : list string) :
  In k l -> existsb (String.eqb k) l = true.
Proof.
  intros H. apply existsb_exists. exists k. split; [ exact H | ].
  apply String.eqb_refl.
Qed.

Lemma lookup_nodup (d : dict) (k : string) (v : value) :
  nodupb (map fst d) = true -> In (k, v) d -> lookup k d = Some v.
Proof.
  induction d as [ | [k0 v0] d IH ]; [ intros _ [] | ].
  cbn [map fst nodupb lookup]. intros Hnd Hin.
  apply andb_true_iff in Hnd. destruct Hnd as [Hfresh Hnd].
  destruct Hin as [ [= -> ->] | Hin ].
  - rewrite String.eqb_refl. reflexivity.
  - destruct (String.eqb k k0) eqn:E; [ | exact (IH Hnd Hin) ].
    apply String.eqb_eq in E. subst k0.
    rewrite (existsb_eqb_In k (map fst d)) in Hfresh; [ discriminate | ].
    exact (in_map fst _ _ Hin).
Qed.

Lemma In_mem (d : dict) (k : string) : In k (keys d) -> mem k d = true.
Proof.
  unfold mem, keys. induction d as [ | [k0 v0] d IH ]; [ intros [] | ].
  cbn [map fst lookup]. destruct (String.eqb k k0) eqn:E; [ reflexivity | ].
  intros [ -> | Hin ]; [ | exact (IH Hin) ].
  rewrite String.eqb_refl in E. discriminate.
Qed.

Lemma extra_keys_self (t : dict) : extra_keys t t = [].
Proof.
  unfold extra_keys.
  assert (H : forall l, (forall k, In k l -> mem k t = true) ->
                        filter (fun k => negb (mem k t)) l = []).
  { induction l as [ | k l IH ]; intros Hl; [ reflexivity | ].
    cbn [filter]. rewrite (Hl k (or_introl eq_refl)). cbn [negb].
    apply IH. intros k' Hk'. apply Hl. right. exact Hk'. }
  rewrite (H (keys t) (In_mem t)). reflexivity.
Qed.

Lemma flat_map_nil {A B} (f : A -> list B) (l : list A) :
  (forall x, In x l -> f x = []) -> flat_map f l = [].
Proof.
  induction l as [ | x l IH ]; intros H; [ reflexivity | ].
  cbn [flat_map]. rewrite (H x (or_introl eq_refl)), IH; [ reflexivity | ].
  intros y Hy. apply H. right. exact Hy.
Qed.

Lemma walk_self (s im : bool) (tv : value) :
  wf_value tv = true ->
  forall t, tv = VDict t -> walk s im tv t = ([], true).
Proof.
  induction tv as [ | | | | | | entries IH ] using value_induction;
    try discriminate.
  intros Hwf t [= <-]. cbn [wf_value] in Hwf.
  apply andb_true_iff in Hwf. destruct Hwf as [Hnd Hwf].
  rewrite forallb_forall in Hwf. rewrite Forall_forall in IH.
  assert (Hentry : forall kv, In kv entries ->
            entry_out (walk s im) s im entries kv = ([], true)).
  { intros [key v] Hin. unfold entry_out. cbn [fst snd].
    rewrite (lookup_nodup entries key v Hnd Hin).
    destruct (isinstance_dict v) eqn:Hv.
    - destruct v; try discriminate.
      exact (IH _ Hin (Hwf _ Hin) _ eq_refl).
    - unfold scalar_out. rewrite pytype_eqb_refl. reflexivity. }
  cbn [walk]. f_equal.
  - rewrite flat_map_nil.
    + unfold extras. rewrite extra_keys_self.
      destruct (negb s && negb im); reflexivity.
    + intros kv Hin. rewrite (Hentry kv Hin). reflexivity.
  - apply forallb_forall. intros kv Hin. rewrite (Hentry kv Hin). reflexivity.
Qed.

(** C7. A dictionary validated against itself, under any policy, logs no
    ERROR record and the run returns true. *)
Theorem identical_trees_validate (t : dict) (s im : bool) :
  wf_value (VDict t) = true ->
  count is_error (findings (VDict t) (VDict t) s im) = 0
  /\ outcome (VDict t) (VDict t) s im = inr true.
Proof.
  intros Hwf. rewrite findings_dict, outcome_dict.
  rewrite (walk_self s im (VDict t) Hwf t eq_refl). split; reflexivity.
Qed.

Lemma identical_trees_validate_witness :
  count is_error
        (findings (VDict [("a", VDict [("b", VInt 1)]); ("c", VList [VNone])])
                  (VDict [("a", VDict [("b", VInt 1)]); ("c", VList [VNone])])
                  true false) = 0
  /\ outcome (VDict [("a", VDict [("b", VInt 1)]); ("c", VList [VNone])])
             (VDict [("a", VDict [("b", VInt 1)]); ("c", VList [VNone])])
             true false = inr true.
Proof.
  apply (identical_trees_validate
           [("a", VDict [("b", VInt 1)]); ("c", VList [VNone])] true false).
  reflexivity.
Defined.

(** ** Counting records *)

Lemma count_app (p : finding -> bool) (l1 l2 : list finding) :
  count p (l1 ++ l2) = count p l1 + count p l2.
Proof. unfold count. rewrite filter_app, length_app. reflexivity. Qed.

Lemma count_flat_map_le {A} (p : finding -> bool) (f g : A -> list finding)
    (l : list A) :
  (forall x, In x l -> count p (f x) <= count p (g x)) ->
  count p (flat_map f l) <= count p (flat_map g l).
Proof.
  induction l as [ | x l IH ]; intros H; [ apply Nat.le_refl | ].
  cbn [flat_map]. rewrite !count_app.
  apply Nat.add_le_mono.
  - apply H. left. reflexivity.
  - apply IH. intros y Hy. apply H. right. exact Hy.
Qed.

Lemma count_error_extras (s im : bool) (c t : dict) :
  count is_error (extras s im c t) = 0.
Proof. apply count_zero. apply forallb_extras. reflexivity. Qed.

Lemma errors_grow_with_strict (im : bool) (c t : dict) :
  count is_error (fst (walk false im (VDict t) c))
  <= count is_error (fst (walk true im (VDict t) c)).
Proof.
  revert c t.
  apply (nested_induction
           (fun c t => count is_error (fst (walk false im (VDict t) c))
                       <= count is_error (fst (walk true im (VDict t) c)))).
  intros c t IH. cbn [walk fst].
  rewrite !count_app, !count_error_extras, !Nat.add_0_r.
  apply count_flat_map_le. intros [key tv] Hin.
  unfold entry_out. cbn [fst snd].
  destruct (lookup key c) as [cv | ] eqn:Hc.
  - destruct tv; try apply Nat.le_refl. cbn [isinstance_dict].
    destruct cv; try apply Nat.le_refl.
    exact (IH _ _ _ Hin Hc).
  - unfold missing_out. destruct im; cbn; lia.
Qed.

(** C8. For a fixed configuration, template and [ignore_missing], the run
    with [strict] set logs at least as many ERROR records as the run with
    [strict] unset, and at most as many WARNING missing-key records. *)
Theorem strict_monotone (c t : dict) (im : bool) :
  count is_error (findings (VDict c) (VDict t) false im)
  <= count is_error (findings (VDict c) (VDict t) true im)
  /\ count is_missing_warning (findings (VDict c) (VDict t) true im)
     <= count is_missing_warning (findings (VDict c) (VDict t) false im).
Proof.
  rewrite !findings_dict. split.
  - apply errors_grow_with_strict.
  - rewrite (count_zero is_missing_warning (fst (walk true im (VDict t) c))).
    + apply Nat.le_0_l.
    + apply forallb_findings; reflexivity.
Qed.

(** ** Strict mode and [ignore_missing] *)

Lemma check_entry_strict_ext (rec1 rec2 : value -> value -> M bool)
    (cfg : value) (im1 im2 : bool) (key : string) (tv : value) (valid : bool) :
  (forall cv, rec1 cv tv = rec2 cv tv) ->
  check_entry rec1 cfg true im1 key tv valid
  = check_entry rec2 cfg true im2 key tv valid.
Proof.
  intros Hrec. unfold check_entry.
  destruct (contains cfg key) as [l [e | [ | ] ] ]; cbn [bind negb];
    try reflexivity.
  destruct (getitem cfg key) as [l' [e | cv] ]; cbn [bind]; try reflexivity.
  rewrite Hrec. reflexivity.
Qed.

Lemma template_loop_strict_ext (rec1 rec2 : value -> value -> M bool)
    (cfg : value) (im1 im2 : bool) (items : dict) :
  Forall (fun kv => forall cv, rec1 cv (snd kv) = rec2 cv (snd kv)) items ->
  forall valid,
    template_loop rec1 cfg true im1 items valid
    = template_loop rec2 cfg true im2 items valid.
Proof.
  induction 1 as [ | [key tv] items Hhd _ IH ]; intros valid; [ reflexivity | ].
  cbn [template_loop]. cbn [snd] in Hhd.
  rewrite (check_entry_strict_ext rec1 rec2 cfg im1 im2 key tv valid Hhd).
  destruct (check_entry rec2 cfg true im2 key tv valid) as [l [e | b] ];
    cbn [bind]; [ reflexivity | ].
  rewrite IH. reflexivity.
Qed.

(** C9. With [strict] set, the whole result of a run (the records logged,
    and the flag returned or the exception raised) is the same whether
    [ignore_missing] is set or not, for all arguments. *)
Theorem strict_ignores_ignore_missing (config_data template_data : value) :
  validate_config config_data template_data true false
  = validate_config config_data template_data true true.
Proof.
  revert config_data.
  induction template_data as [ | | | | | | entries IH ] using value_induction;
    intros config_data; try reflexivity.
  cbn [validate_config negb andb].
  rewrite (template_loop_strict_ext
             (fun cv tv => validate_config cv tv true false)
             (fun cv tv => validate_config cv tv true true)
             config_data false true entries).
  - reflexivity.
  - apply Forall_forall. intros kv Hin cv.
    rewrite Forall_forall in IH. exact (IH kv Hin cv).
Qed.

(** ** Keys the template does not know *)

Lemma lookup_skip (c1 c2 : dict) (k key : string) (v : value) :
  String.eqb key k = false ->
  lookup key (c1 ++ (k, v) :: c2) = lookup key (c1 ++ c2).
Proof.
  intros Hne. induction c1 as [ | [k0 v0] c1 IH ]; cbn [app lookup].
  - rewrite Hne. reflexivity.
  - rewrite IH. reflexivity.
Qed.

Lemma In_keys_neq (t : dict) (k : string) (kv : string * value) :
  mem k t = false -> In kv t -> String.eqb (fst kv) k = false.
Proof.
  intros Hk Hin. destruct (String.eqb (fst kv) k) eqn:E; [ | reflexivity ].
  apply String.eqb_eq in E. subst k.
  rewrite (In_mem t (fst kv) (in_map fst _ _ Hin)) in Hk. discriminate.
Qed.

Lemma entry_out_lookup_ext (s im : bool) (c c' : dict) (kv : string * value) :
  lookup (fst kv) c = lookup (fst kv) c' ->
  entry_out (walk s im) s im c kv = entry_out (walk s im) s im c' kv.
Proof. intros H. unfold entry_out. rewrite H. reflexivity. Qed.

Lemma extra_keys_app (c1 c2 t : dict) :
  extra_keys (c1 ++ c2) t = extra_keys c1 t ++ extra_keys c2 t.
Proof.
  unfold extra_keys, keys. rewrite map_app, filter_app, map_app. reflexivity.
Qed.

Lemma extra_keys_cons_unknown (c t : dict) (k : string) (v : value) :
  mem k t = false ->
  extra_keys ((k, v) :: c) t = (WARNING, ExtraKeyMsg (VStr k)) :: extra_keys c t.
Proof.
  intros Hk. unfold extra_keys, keys. cbn [map fst filter].
  rewrite Hk. reflexivity.
Qed.

Lemma flat_map_agree {A B} (f g : A -> list B) (l : list A) :
  (forall x, In x l -> f x = g x) -> flat_map f l = flat_map g l.
Proof.
  induction l as [ | x l IH ]; intros H; [ reflexivity | ].
  cbn [flat_map]. rewrite (H x (or_introl eq_refl)), IH; [ reflexivity | ].
  intros y Hy. apply H. right. exact Hy.
Qed.

Lemma walk_unknown_key (s im : bool) (c1 c2 t : dict) (k : string) (v : value) :
  mem k t = false ->
  walk s im (VDict t) (c1 ++ (k, v) :: c2)
  = ((flat_map (fun kv => fst (entry_out (walk s im) s im (c1 ++ c2) kv)) t
        ++ extras s im c1 t)
       ++ extra_record s im k ++ extras s im c2 t,
     snd (walk s im (VDict t) (c1 ++ c2))).
Proof.
  intros Hk.
  assert (Hentry : forall kv, In kv t ->
            entry_out (walk s im) s im (c1 ++ (k, v) :: c2) kv
            = entry_out (walk s im) s im (c1 ++ c2) kv).
  { intros kv Hin. apply entry_out_lookup_ext.
    apply lookup_skip. exact (In_keys_neq t k kv Hk Hin). }
  cbn [walk fst snd]. f_equal.
  - rewrite <- app_assoc. f_equal.
    + apply flat_map_agree. intros kv Hin. rewrite (Hentry kv Hin). reflexivity.
    + unfold extras, extra_record. destruct (negb s && negb im); [ | reflexivity ].
      rewrite extra_keys_app, (extra_keys_cons_unknown c2 t k v Hk). reflexivity.
  - apply forallb_ext_in. intros kv Hin. rewrite (Hentry kv Hin). reflexivity.
Qed.

Lemma lookup_update_same (key : string) (f : value -> value) (d : dict) :
  lookup key (update key f d) = option_map f (lookup key d).
Proof.
  induction d as [ | [k v] d IH ]; [ reflexivity | ].
  cbn [update lookup]. destruct (String.eqb key k) eqn:E; cbn [lookup].
  - rewrite E. reflexivity.
  - rewrite E. exact IH.
Qed.

Lemma lookup_update_other (key key' : string) (f : value -> value) (d : dict) :
  String.eqb key' key = false ->
  lookup key' (update key f d) = lookup key' d.
Proof.
  intros Hne. induction d as [ | [k v] d IH ]; [ reflexivity | ].
  cbn [update lookup]. destruct (String.eqb key k) eqn:E; cbn [lookup].
  - apply String.eqb_eq in E. subst k. rewrite Hne. reflexivity.
  - rewrite IH. reflexivity.
Qed.

Lemma keys_update (key : string) (f : value -> value) (d : dict) :
  keys (update key f d) = keys d.
Proof.
  unfold keys. induction d as [ | [k v] d IH ]; [ reflexivity | ].
  cbn [update]. destruct (String.eqb key k); cbn [map fst]; [ reflexivity | ].
  rewrite IH. reflexivity.
Qed.

Lemma wf_lookup (t : dict) (key : string) (v : value) :
  wf_value (VDict t) = true -> lookup key t = Some v -> wf_value v = true.
Proof.
  cbn [wf_value]. intros Hwf Hv.
  apply andb_true_iff in Hwf. destruct Hwf as [_ Hwf].
  rewrite forallb_forall in Hwf. exact (Hwf _ (lookup_In _ _ _ Hv)).
Qed.

(** Changing a nested dictionary of the configuration into one on which the
    nested call gives the same result leaves the result of the root as it
    is. *)
Lemma walk_set_at (s im : bool) (new old t' : dict) (path : list string) :
  walk s im (VDict t') new = walk s im (VDict t') old ->
  forall c t,
    wf_value (VDict t) = true ->
    descend path c t = Some (old, t') ->
    walk s im (VDict t) (set_at path new c) = walk s im (VDict t) c.
Proof.
  intros Hnew. induction path as [ | key path IH ]; intros c t Hwf;
    cbn [descend set_at].
  - intros [= -> ->]. exact Hnew.
  - destruct (lookup key t) as [ [ | | | | | | t1 ] | ] eqn:Ht; try discriminate.
    destruct (lookup key c) as [ [ | | | | | | c1 ] | ] eqn:Hc; try discriminate.
    intros Hd.
    pose proof (IH c1 t1 (wf_lookup t key (VDict t1) Hwf Ht) Hd) as IH1.
    set (f := fun v => match v with
                       | VDict c' => VDict (set_at path new c')
                       | _ => v
                       end).
    assert (Hentry : forall kv, In kv t ->
              entry_out (walk s im) s im (update key f c) kv
              = entry_out (walk s im) s im c kv).
    { intros [k tv] Hin. destruct (String.eqb k key) eqn:E.
      - apply String.eqb_eq in E. subst k.
        cbn [wf_value] in Hwf. apply andb_true_iff in Hwf.
        pose proof (lookup_nodup t key tv (proj1 Hwf) Hin) as Htv.
        rewrite Ht in Htv. injection Htv as <-.
        unfold entry_out. cbn [fst snd isinstance_dict].
        rewrite lookup_update_same, Hc. cbn [option_map f]. exact IH1.
      - apply entry_out_lookup_ext. cbn [fst].
        apply lookup_update_other. exact E. }
    cbn [walk]. f_equal.
    + f_equal.
      * apply flat_map_agree. intros kv Hin. rewrite (Hentry kv Hin). reflexivity.
      * unfold extras, extra_keys. rewrite keys_update. reflexivity.
    + apply forallb_ext_in. intros kv Hin. rewrite (Hentry kv Hin). reflexivity.
Qed.

(** C10. Let the recursion reach, along [path], a configuration dictionary
    holding a key [k] that the template dictionary of that level lacks.
    Whatever value is put under [k] there, the whole run from the root logs
    the same records and returns the same flag; and the call at that level
    differs from the call on the dictionary without [k] only by the one
    extra-key WARNING for [k] (by nothing when [strict] or [ignore_missing]
    is set), with the same flag. *)
Theorem extra_subtree_ignored
    (c t : dict) (path : list string) (c1 c2 t' : dict)
    (k : string) (v : value) (s im : bool) :
  wf_value (VDict t) = true ->
  descend path c t = Some (c1 ++ (k, v) :: c2, t') ->
  mem k t' = false ->
  (forall v',
      validate_config (VDict (set_at path (c1 ++ (k, v') :: c2) c)) (VDict t) s im
      = validate_config (VDict c) (VDict t) s im)
  /\ exists pre post,
      findings (VDict (c1 ++ c2)) (VDict t') s im = pre ++ post
      /\ findings (VDict (c1 ++ (k, v) :: c2)) (VDict t') s im
         = pre ++ extra_record s im k ++ post
      /\ outcome (VDict (c1 ++ (k, v) :: c2)) (VDict t') s im
         = outcome (VDict (c1 ++ c2)) (VDict t') s im.
Proof.
  intros Hwf Hd Hk. split.
  - intros v'. rewrite !validate_config_dict.
    rewrite (walk_set_at s im (c1 ++ (k, v') :: c2) (c1 ++ (k, v) :: c2) t' path);
      [ reflexivity | | exact Hwf | exact Hd ].
    rewrite !(walk_unknown_key s im c1 c2 t' k) by exact Hk. reflexivity.
  - exists (flat_map
              (fun kv => fst (entry_out (walk s im) s im (c1 ++ c2) kv)) t'
              ++ extras s im c1 t'),
           (extras s im c2 t').
    rewrite !findings_dict, !outcome_dict.
    rewrite (walk_unknown_key s im c1 c2 t' k v Hk).
    split; [ | split; reflexivity ].
    cbn [walk fst]. rewrite <- app_assoc. f_equal.
    unfold extras. destruct (negb s && negb im); [ | reflexivity ].
    apply extra_keys_app.
Qed.

Lemma extra_subtree_ignored_witness :
  (forall v',
      validate_config
        (VDict (set_at ["srv"] ([("port", VInt 1)] ++ ("deep", v') :: [])
                       [("srv", VDict [("port", VInt 1); ("deep", VNone)])]))
        (VDict [("srv", VDict [("port", VInt 0)])]) false false
      = validate_config
          (VDict [("srv", VDict [("port", VInt 1); ("deep", VNone)])])
          (VDict [("srv", VDict [("port", VInt 0)])]) false false)
  /\ exists pre post,
      findings (VDict ([("port", VInt 1)] ++ []))
               (VDict [("port", VInt 0)]) false false = pre ++ post
      /\ findings (VDict ([("port", VInt 1)] ++ ("deep", VNone) :: []))
                  (VDict [("port", VInt 0)]) false false
         = pre ++ extra_record false false "deep" ++ post
      /\ outcome (VDict ([("port", VInt 1)] ++ ("deep", VNone) :: []))
                 (VDict [("port", VInt 0)]) false false
         = outcome (VDict ([("port", VInt 1)] ++ []))
                   (VDict [("port", VInt 0)]) false false.
Proof.
  apply (extra_subtree_ignored
           [("srv", VDict [("port", VInt 1); ("deep", VNone)])]
           [("srv", VDict [("port", VInt 0)])]
           ["srv"] [("port", VInt 1)] [] [("port", VInt 0)]
           "deep" VNone false false);
    reflexivity.
Defined.

(** ** Roots that are not dictionaries *)

(** C2, as stated, fails: a list at the root of the configuration is
    compared with the template and the run returns true. *)
Lemma list_root_is_validated :
  isinstance_dict (VList [VStr "x"]) = false
  /\ validate_config (VList [VStr "x"]) (VDict [("port", VInt 1)]) false false
     = ([(WARNING, MissingMsg "port"); (WARNING, ExtraKeyMsg (VStr "x"))],
        inr true).
Proof. split; reflexivity. Qed.

(** C2, amended. A template root that is not a dictionary makes the run
    raise (AttributeError) before anything is compared or logged.  A
    configuration root that is none, a boolean or a number makes the run
    raise (TypeError), with nothing logged, at the first membership test or
    at the iteration of the extra-key pass; only when the template is empty
    and that pass is switched off does the run return, true. *)
Theorem root_shape_faults (c t : value) (s im : bool) :
  isinstance_dict t = false \/ iterable c = false ->
  validate_config c t s im
  = match t with
    | VDict [] =>
        if negb s && negb im then ([], inl TypeError) else ([], inr true)
    | VDict (_ :: _) => ([], inl TypeError)
    | _ => ([], inl AttributeError)
    end.
Proof.
  intros [Ht | Hc].
  - destruct t; try reflexivity. discriminate.
  - destruct t as [ | | | | | | [ | [key tv] items ] ]; try reflexivity.
    + cbn [validate_config template_loop]. rewrite bind_ret.
      destruct (negb s && negb im); [ | reflexivity ].
      destruct c; try discriminate; reflexivity.
    + destruct c; try discriminate; reflexivity.
Qed.

Lemma root_shape_faults_witness :
  validate_config (VInt 5) (VDict [("port", VInt 1)]) false false
  = ([], inl TypeError).
Proof.
  apply (root_shape_faults (VInt 5) (VDict [("port", VInt 1)]) false false).
  right. reflexivity.
Defined.

(** ** The program around the validator *)

Lemma pbind_pret {A B} (a : A) (k : A -> P B) : pbind (pret a) k = k a.
Proof. unfold pbind, pret. destruct (k a); reflexivity. Qed.

Lemma pbind_emit {B} (ev : event) (k : unit -> P B) :
  pbind (emit ev) k = (ev :: fst (k tt), snd (k tt)).
Proof. unfold pbind, emit. destruct (k tt); reflexivity. Qed.

Lemma pbind_ok {A B} (l : list event) (a : A) (k : A -> P B) :
  pbind (l, inr a) k = (l ++ fst (k a), snd (k a)).
Proof. unfold pbind. destruct (k a); reflexivity. Qed.

Lemma pbind_stop {A B} (l : list event) (st : stop) (k : A -> P B) :
  pbind (l, inl st) k = (l, inl st).
Proof. reflexivity. Qed.

(** What [run_linter] does, by the answer of the child process. *)
Lemma run_linter_cases (w : world) (linter : string) (argv : list string)
    (file_path : string) :
  run_linter w linter argv file_path
  = match subprocess_run w argv with
    | inl e => ([RunProcess argv], inl (Raised e))
    | inr (rc, err) =>
        if Z.eqb rc 0
        then ([RunProcess argv; LogRecord (LintPassedMsg linter file_path)],
              inr true)
        else ([RunProcess argv; LogRecord (LintFailedMsg linter file_path err)],
              inr false)
    end.
Proof.
  unfold run_linter. rewrite pbind_emit.
  destruct (subprocess_run w argv) as [e | [rc err] ]; [ reflexivity | ].
  cbn [external]. rewrite pbind_pret. cbn [fst snd].
  destruct (Z.eqb rc 0); reflexivity.
Qed.

(** X1. [lint_file] never raises and never exits: it returns a boolean and
    logs exactly one message.  It returns true exactly when it ran a linter
    and that process ended with return code 0; a linter that is not
    installed, fails to start or reports errors gives false. *)
Theorem lint_file_returns (w : world) (file_path ft : string) :
  exists b,
    snd (lint_file w file_path ft) = inr b
    /\ List.length (filter is_log (trace (lint_file w file_path ft))) = 1
    /\ (b = true <->
        exists argv err,
          In (RunProcess argv) (trace (lint_file w file_path ft))
          /\ subprocess_run w argv = inr (0%Z, err)).
Proof.
  unfold lint_file, trace.
  assert (Hrun : forall linter argv,
            let r := try_except (run_linter w linter argv file_path)
                       (fun e =>
                          match e with
                          | FileNotFoundError =>
                              emit (LogRecord LinterNotFoundMsg) >> pret false
                          | _ => emit (LogRecord (LintErrorMsg e)) >> pret false
                          end) in
            exists b,
              snd r = inr b
              /\ List.length (filter is_log (fst r)) = 1
              /\ (b = true <->
                  exists argv' err,
                    In (RunProcess argv') (fst r)
                    /\ subprocess_run w argv' = inr (0%Z, err))).
  { intros linter argv. cbv zeta. rewrite run_linter_cases.
    destruct (subprocess_run w argv) as [e | [rc err] ] eqn:Hsub.
    - exists false. destruct e; cbn; (split; [ reflexivity | split; [ reflexivity | ] ]);
        (split; [ discriminate | ]);
        intros (argv' & err & [ [= <-] | [ [=] | [] ] ] & Hzero);
        rewrite Hsub in Hzero; discriminate.
    - destruct (Z.eqb rc 0) eqn:Hrc.
      + exists true. cbn. split; [ reflexivity | split; [ reflexivity | ] ].
        split; [ intros _ | reflexivity ].
        apply Z.eqb_eq in Hrc. subst rc.
        exists argv, err. split; [ left; reflexivity | exact Hsub ].
      + exists false. cbn. split; [ reflexivity | split; [ reflexivity | ] ].
        split; [ discriminate | ].
        intros (argv' & err' & [ [= <-] | [ [=] | [] ] ] & Hzero).
        rewrite Hsub in Hzero. injection Hzero as -> _. discriminate. }
  destruct (String.eqb ft "yaml"); [ apply Hrun | ].
  destruct (String.eqb ft "json"); [ apply Hrun | ].
  exists false. cbn. split; [ reflexivity | split; [ reflexivity | ] ].
  split; [ discriminate | ].
  intros (argv' & err & [ [=] | [] ] & _).
Qed.

Lemma load_file_handler (file_path : string) (l : list event) (e : error) :
  try_except (A := value) (l, inl (Raised e))
    (fun e =>
       emit (LogRecord
               match e with
               | FileNotFoundError => FileNotFoundMsg file_path
               | JSONDecodeError => JSONDecodeMsg file_path
               | YAMLError => YAMLErrorMsg file_path
               | _ => LoadErrorMsg file_path e
               end) >>
       praise e)
  = (l ++ [LogRecord
             match e with
             | FileNotFoundError => FileNotFoundMsg file_path
             | JSONDecodeError => JSONDecodeMsg file_path
             | YAMLError => YAMLErrorMsg file_path
             | _ => LoadErrorMsg file_path e
             end],
     inl (Raised e)).
Proof. reflexivity. Qed.

(** [load_file] once the type is given. *)
Lemma load_file_typed (w : world) (file_path ft : string) :
  load_file w file_path (Some ft)
  = match open_read w file_path with
    | inl e =>
        ([OpenFile file_path;
          LogRecord match e with
                    | FileNotFoundError => FileNotFoundMsg file_path
                    | JSONDecodeError => JSONDecodeMsg file_path
                    | YAMLError => YAMLErrorMsg file_path
                    | _ => LoadErrorMsg file_path e
                    end],
         inl (Raised e))
    | inr f =>
        match (if String.eqb ft "json" then json_load w f
               else if String.eqb ft "yaml" then yaml_safe_load w f
               else inl (ValueError
                           "Invalid file type. Must be 'json' or 'yaml'."))
        with
        | inl e =>
            ([OpenFile file_path;
              LogRecord match e with
                        | FileNotFoundError => FileNotFoundMsg file_path
                        | JSONDecodeError => JSONDecodeMsg file_path
                        | YAMLError => YAMLErrorMsg file_path
                        | _ => LoadErrorMsg file_path e
                        end],
             inl (Raised e))
        | inr v => ([OpenFile file_path], inr v)
        end
    end.
Proof.
  unfold load_file. rewrite pbind_emit.
  destruct (open_read w file_path) as [e | f]; [ reflexivity | ].
  cbn [external]. rewrite !pbind_pret.
  destruct (String.eqb ft "json").
  - destruct (json_load w f); reflexivity.
  - destruct (String.eqb ft "yaml"); [ | reflexivity ].
    destruct (yaml_safe_load w f); reflexivity.
Qed.

Lemma load_file_untyped (w : world) (file_path : string) :
  load_file w file_path None
  = if endswith file_path ".json" then load_file w file_path (Some "json")
    else if endswith file_path ".yaml" || endswith file_path ".yml"
         then load_file w file_path (Some "yaml")
    else match open_read w file_path with
         | inl e => load_file w file_path (Some "json")
         | inr _ =>
             ([OpenFile file_path;
               LogRecord
                 (LoadErrorMsg file_path
                    (ValueError
                       "Could not infer file type. Please specify using --file_type."))],
              inl (Raised
                     (ValueError
                        "Could not infer file type. Please specify using --file_type.")))
         end.
Proof.
  unfold load_file. rewrite !pbind_emit.
  destruct (endswith file_path ".json"); [ reflexivity | ].
  destruct (endswith file_path ".yaml" || endswith file_path ".yml");
    [ reflexivity | ].
  destruct (open_read w file_path) as [e | f]; reflexivity.
Qed.

(** X2. [load_file] opens the file once and never exits.  Either it returns
    the parsed value and logs nothing, or it logs exactly one message and
    raises, and the exception it raises is the one that occurred. *)
Theorem load_file_logs_once (w : world) (file_path : string)
    (ft : option string) :
  match snd (load_file w file_path ft) with
  | inr _ => trace (load_file w file_path ft) = [OpenFile file_path]
  | inl (Raised _) =>
      exists r, trace (load_file w file_path ft)
                = [OpenFile file_path; LogRecord r]
  | inl (Exit _) => False
  end.
Proof.
  assert (Htyped : forall ft',
            match snd (load_file w file_path (Some ft')) with
            | inr _ => trace (load_file w file_path (Some ft'))
                       = [OpenFile file_path]
            | inl (Raised _) =>
                exists r, trace (load_file w file_path (Some ft'))
                          = [OpenFile file_path; LogRecord r]
            | inl (Exit _) => False
            end).
  { intros ft'. rewrite load_file_typed.
    destruct (open_read w file_path) as [e | f];
      [ cbn; eexists; reflexivity | ].
    destruct (if String.eqb ft' "json" then json_load w f
              else if String.eqb ft' "yaml" then yaml_safe_load w f
              else inl (ValueError
                          "Invalid file type. Must be 'json' or 'yaml'."));
      cbn; [ eexists; reflexivity | reflexivity ]. }
  destruct ft as [ft' | ]; [ apply Htyped | ].
  rewrite load_file_untyped.
  destruct (endswith file_path ".json"); [ apply Htyped | ].
  destruct (endswith file_path ".yaml" || endswith file_path ".yml");
    [ apply Htyped | ].
  destruct (open_read w file_path) as [e | f] eqn:Hopen; [ apply Htyped | ].
  cbn. eexists. reflexivity.
Qed.

(** X3. A file that cannot be opened is reported with the exception of
    [open], whatever file type is passed: given, missing or invalid. *)
Theorem load_file_open_first (w : world) (file_path : string)
    (ft : option string) (e : error) :
  open_read w file_path = inl e ->
  snd (load_file w file_path ft) = inl (Raised e)
  /\ exists r, trace (load_file w file_path ft)
               = [OpenFile file_path; LogRecord r].
Proof.
  intros Hopen.
  assert (Htyped : forall ft',
            snd (load_file w file_path (Some ft')) = inl (Raised e)
            /\ exists r, trace (load_file w file_path (Some ft'))
                         = [OpenFile file_path; LogRecord r]).
  { intros ft'. rewrite load_file_typed, Hopen.
    split; [ reflexivity | eexists; reflexivity ]. }
  destruct ft as [ft' | ]; [ apply Htyped | ].
  rewrite load_file_untyped, Hopen.
  destruct (endswith file_path ".json"); [ apply Htyped | ].
  destruct (endswith file_path ".yaml" || endswith file_path ".yml");
    apply Htyped.
Qed.

Lemma load_file_open_first_witness :
  snd (load_file demo_world "absent.toml" None) = inl (Raised FileNotFoundError)
  /\ exists r, trace (load_file demo_world "absent.toml" None)
               = [OpenFile "absent.toml"; LogRecord r].
Proof.
  apply (load_file_open_first demo_world "absent.toml" None FileNotFoundError).
  reflexivity.
Defined.

(** ** File names *)

Lemma endswith_empty (suffix : string) :
  endswith EmptyString suffix = true -> suffix = EmptyString.
Proof.
  cbn [endswith]. rewrite orb_false_r. intros H.
  apply String.eqb_eq in H. symmetry. exact H.
Qed.

Lemma endswith_last_char (s suffix : string) :
  endswith s suffix = true -> suffix <> EmptyString ->
  last_char s = last_char suffix.
Proof.
  intros H Hne. induction s as [ | ch s IH ].
  - apply endswith_empty in H. contradiction.
  - cbn [endswith] in H. apply orb_true_iff in H. destruct H as [H | H].
    + apply String.eqb_eq in H. subst suffix. reflexivity.
    + destruct s as [ | ch' s ].
      * apply endswith_empty in H. contradiction.
      * rewrite <- (IH H). reflexivity.
Qed.

Lemma json_not_yaml (file_path : string) :
  endswith file_path ".yaml" = true \/ endswith file_path ".yml" = true ->
  endswith file_path ".json" = false.
Proof.
  intros H. destruct (endswith file_path ".json") eqn:Hjson; [ | reflexivity ].
  apply endswith_last_char in Hjson; [ | discriminate ].
  destruct H as [H | H]; apply endswith_last_char in H; try discriminate;
    rewrite Hjson in H; discriminate.
Qed.

(** X4. Without a file type, a name ending in ".json" is loaded exactly as
    with the type "json", and a name ending in ".yaml" or ".yml" exactly as
    with the type "yaml": same value or exception, same events. *)
Theorem load_file_infers (w : world) (file_path suffix ft : string) :
  In (suffix, ft) known_suffixes ->
  endswith file_path suffix = true ->
  load_file w file_path None = load_file w file_path (Some ft).
Proof.
  intros Hknown Hends. rewrite load_file_untyped.
  destruct Hknown as [ [= <- <-] | [ [= <- <-] | [ [= <- <-] | [] ] ] ].
  - rewrite Hends. reflexivity.
  - rewrite (json_not_yaml file_path (or_introl Hends)), Hends. reflexivity.
  - rewrite (json_not_yaml file_path (or_intror Hends)), Hends.
    rewrite orb_true_r. reflexivity.
Qed.

Lemma load_file_infers_witness :
  load_file demo_world "conf.d/app.yml" None
  = load_file demo_world "conf.d/app.yml" (Some "yaml").
Proof.
  apply (load_file_infers demo_world "conf.d/app.yml" ".yml" "yaml").
  - right. right. left. reflexivity.
  - reflexivity.
Defined.

(** ** The flow of [main] *)

Lemma main_unresolved (w : world) (args : Namespace) :
  main_file_type args = None -> main w args = ([], inl (Exit 2)).
Proof.
  unfold main_file_type, main.
  destruct (file_type args); [ discriminate | ].
  destruct (endswith (config_file args) ".json"); [ discriminate | ].
  destruct (endswith (config_file args) ".yaml"
            || endswith (config_file args) ".yml"); [ discriminate | ].
  reflexivity.
Qed.

Lemma main_resolved (w : world) (args : Namespace) (ft : string) :
  main_file_type args = Some ft ->
  main w args
  = try_except (main_steps w args ft)
      (fun e => emit (LogRecord (UnexpectedMsg e)) >> sys_exit 1).
Proof.
  unfold main_file_type, main.
  destruct (file_type args) as [ft' | ].
  - intros [= ->]. rewrite pbind_pret. reflexivity.
  - destruct (endswith (config_file args) ".json").
    + intros [= <-]. rewrite pbind_pret. reflexivity.
    + destruct (endswith (config_file args) ".yaml"
                || endswith (config_file args) ".yml"); [ | discriminate ].
      intros [= <-]. rewrite pbind_pret. reflexivity.
Qed.

(** The stages of [main] in sequence: the linter, the two files, the
    validator; the first stage that fails ends the run. *)
Lemma main_flow (w : world) (args : Namespace) (ft : string) :
  main_file_type args = Some ft ->
  main w args
  = let lint_run :=
      if lint args then lint_file w (config_file args) ft else ([], inr true) in
    let config_run := load_file w (config_file args) (Some ft) in
    let template_run := load_file w (template_file args) (Some ft) in
    match snd lint_run with
    | inr true =>
        match snd config_run with
        | inr config_data =>
            match snd template_run with
            | inr template_data =>
                let run := validate_config config_data template_data
                             (strict args) (ignore_missing args) in
                let seen :=
                  fst lint_run ++ fst config_run ++ fst template_run
                  ++ map (fun f => LogRecord (ValidationMsg f)) (fst run) in
                match snd run with
                | inr true => (seen ++ [LogRecord ValidMsg], inr tt)
                | inr false => (seen ++ [LogRecord InvalidMsg], inl (Exit 1))
                | inl e =>
                    (seen ++ [LogRecord (UnexpectedMsg (ValidationError e))],
                     inl (Exit 1))
                end
            | inl (Raised e) =>
                (fst lint_run ++ fst config_run ++ fst template_run
                 ++ [LogRecord (UnexpectedMsg e)],
                 inl (Exit 1))
            | inl (Exit code) =>
                (fst lint_run ++ fst config_run ++ fst template_run,
                 inl (Exit code))
            end
        | inl (Raised e) =>
            (fst lint_run ++ fst config_run ++ [LogRecord (UnexpectedMsg e)],
             inl (Exit 1))
        | inl (Exit code) => (fst lint_run ++ fst config_run, inl (Exit code))
        end
    | inr false => (fst lint_run ++ [LogRecord LintAbortMsg], inl (Exit 1))
    | inl (Raised e) =>
        (fst lint_run ++ [LogRecord (UnexpectedMsg e)], inl (Exit 1))
    | inl (Exit code) => (fst lint_run, inl (Exit code))
    end.
Proof.
  intros Hft. rewrite (main_resolved w args ft Hft). unfold main_steps.
  cbv zeta.
  assert (Hrest : forall l0,
    try_except
      (pbind (l0, inr tt) (fun _ =>
         config_data <~ load_file w (config_file args) (Some ft) ;;
         template_data <~ load_file w (template_file args) (Some ft) ;;
         ok <~ validation (validate_config config_data template_data
                             (strict args) (ignore_missing args)) ;;
         if ok then emit (LogRecord ValidMsg)
         else emit (LogRecord InvalidMsg) >> sys_exit 1))
      (fun e => emit (LogRecord (UnexpectedMsg e)) >> sys_exit 1)
    = match snd (load_file w (config_file args) (Some ft)) with
      | inr config_data =>
          match snd (load_file w (template_file args) (Some ft)) with
          | inr template_data =>
              match snd (validate_config config_data template_data
                           (strict args) (ignore_missing args)) with
              | inr true =>
                  ((l0 ++ fst (load_file w (config_file args) (Some ft))
                    ++ fst (load_file w (template_file args) (Some ft))
                    ++ map (fun f => LogRecord (ValidationMsg f))
                         (fst (validate_config config_data template_data
                                 (strict args) (ignore_missing args))))
                   ++ [LogRecord ValidMsg], inr tt)
              | inr false =>
                  ((l0 ++ fst (load_file w (config_file args) (Some ft))
                    ++ fst (load_file w (template_file args) (Some ft))
                    ++ map (fun f => LogRecord (ValidationMsg f))
                         (fst (validate_config config_data template_data
                                 (strict args) (ignore_missing args))))
                   ++ [LogRecord InvalidMsg], inl (Exit 1))
              | inl e =>
                  ((l0 ++ fst (load_file w (config_file args) (Some ft))
                    ++ fst (load_file w (template_file args) (Some ft))
                    ++ map (fun f => LogRecord (ValidationMsg f))
                         (fst (validate_config config_data template_data
                                 (strict args) (ignore_missing args))))
                   ++ [LogRecord (UnexpectedMsg (ValidationError e))],
                   inl (Exit 1))
              end
          | inl (Raised e) =>
              (l0 ++ fst (load_file w (config_file args) (Some ft))
               ++ fst (load_file w (template_file args) (Some ft))
               ++ [LogRecord (UnexpectedMsg e)],
               inl (Exit 1))
          | inl (Exit code) =>
              (l0 ++ fst (load_file w (config_file args) (Some ft))
               ++ fst (load_file w (template_file args) (Some ft)),
               inl (Exit code))
          end
      | inl (Raised e) =>
          (l0 ++ fst (load_file w (config_file args) (Some ft))
           ++ [LogRecord (UnexpectedMsg e)],
           inl (Exit 1))
      | inl (Exit code) =>
          (l0 ++ fst (load_file w (config_file args) (Some ft)),
           inl (Exit code))
      end).
  { intros l0. rewrite pbind_ok.
    destruct (load_file w (config_file args) (Some ft))
      as [lc [ [ec | code] | config_data ] ]; cbn [fst snd pbind try_except];
      try (cbn; rewrite ?app_assoc; reflexivity).
    destruct (load_file w (template_file args) (Some ft))
      as [lt [ [et | code] | template_data ] ]; cbn [fst snd pbind try_except];
      try (cbn; rewrite ?app_assoc, ?app_nil_r; reflexivity).
    unfold validation.
    destruct (validate_config config_data template_data
                (strict args) (ignore_missing args)) as [lv [e | [ | ] ] ];
      cbn; rewrite ?app_assoc, ?app_nil_r; reflexivity. }
  destruct (lint args).
  - destruct (lint_file w (config_file args) ft) as [ll [ [e | code] | [ | ] ] ];
      cbn [fst snd]; try reflexivity.
    rewrite (pbind_ok ll true). cbn [negb pret fst snd].
    rewrite app_nil_r. apply Hrest.
  - exact (Hrest []).
Qed.

Lemma lint_file_shape (w : world) (file_path ft : string) :
  exists b, snd (lint_file w file_path ft) = inr b
            /\ filter is_open (fst (lint_file w file_path ft)) = []
            /\ ~ In (LogRecord ValidMsg) (fst (lint_file w file_path ft))
            /\ forall argv,
                In (RunProcess argv) (fst (lint_file w file_path ft)) ->
                argv = ["yamllint"; file_path]
                \/ argv = ["jsonlint"; "-q"; file_path].
Proof.
  assert (Hrun : forall linter argv,
            let r := try_except (run_linter w linter argv file_path)
                       (fun e =>
                          match e with
                          | FileNotFoundError =>
                              emit (LogRecord LinterNotFoundMsg) >> pret false
                          | _ => emit (LogRecord (LintErrorMsg e)) >> pret false
                          end) in
            exists b, snd r = inr b /\ filter is_open (fst r) = []
                      /\ ~ In (LogRecord ValidMsg) (fst r)
                      /\ forall argv', In (RunProcess argv') (fst r) ->
                                       argv' = argv).
  { intros linter argv. cbv zeta. rewrite run_linter_cases.
    destruct (subprocess_run w argv) as [e | [rc err] ].
    - exists false. destruct e; cbn;
        (split; [ reflexivity | split; [ reflexivity | split ] ]);
        lazymatch goal with
        | |- ~ _ => intros [ [=] | [ [=] | [] ] ]
        | |- _ => intros argv' [ [= <-] | [ [=] | [] ] ]; reflexivity
        end.
    - destruct (Z.eqb rc 0); eexists; cbn;
        (split; [ reflexivity | split; [ reflexivity | split ] ]);
        lazymatch goal with
        | |- ~ _ => intros [ [=] | [ [=] | [] ] ]
        | |- _ => intros argv' [ [= <-] | [ [=] | [] ] ]; reflexivity
        end. }
  unfold lint_file.
  destruct (String.eqb ft "yaml").
  { destruct (Hrun "yamllint" ["yamllint"; file_path])
      as (b & H1 & H2 & H3 & H4).
    exists b. repeat split; auto. }
  destruct (String.eqb ft "json").
  { destruct (Hrun "jsonlint" ["jsonlint"; "-q"; file_path])
      as (b & H1 & H2 & H3 & H4).
    exists b. repeat split; auto. }
  exists false. cbn. split; [ reflexivity | split; [ reflexivity | split ] ].
  - intros [ [=] | [] ].
  - intros argv [ [=] | [] ].
Qed.

Lemma load_file_shape (w : world) (file_path ft : string) :
  (exists v, load_file w file_path (Some ft) = ([OpenFile file_path], inr v))
  \/ (exists e r, load_file w file_path (Some ft)
                  = ([OpenFile file_path; LogRecord r], inl (Raised e))
                  /\ r <> ValidMsg).
Proof.
  rewrite load_file_typed.
  destruct (open_read w file_path) as [e | f].
  - right. eexists. eexists. split; [ reflexivity | ]. destruct e; discriminate.
  - destruct (if String.eqb ft "json" then json_load w f
              else if String.eqb ft "yaml" then yaml_safe_load w f
              else inl (ValueError
                          "Invalid file type. Must be 'json' or 'yaml'."))
      as [e | v].
    + right. eexists. eexists. split; [ reflexivity | ]. destruct e; discriminate.
    + left. eexists. reflexivity.
Qed.


(** The four ways a run of [main] with a settled file type can go. *)
Lemma main_cases (w : world) (args : Namespace) (ft : string) :
  main_file_type args = Some ft ->
  let cf := config_file args in
  let tf := template_file args in
  let linted := if lint args then fst (lint_file w cf ft) else [] in
  (lint args = true
   /\ snd (lint_file w cf ft) = inr false
   /\ main w args = (linted ++ [LogRecord LintAbortMsg], inl (Exit 1)))
  \/ ((lint args = true -> snd (lint_file w cf ft) = inr true)
      /\ ((exists e r,
              load_file w cf (Some ft)
              = ([OpenFile cf; LogRecord r], inl (Raised e))
              /\ r <> ValidMsg
              /\ main w args
                 = (linted ++ [OpenFile cf; LogRecord r;
                               LogRecord (UnexpectedMsg e)],
                    inl (Exit 1)))
          \/ (exists cv e r,
                 load_file w cf (Some ft) = ([OpenFile cf], inr cv)
                 /\ load_file w tf (Some ft)
                    = ([OpenFile tf; LogRecord r], inl (Raised e))
                 /\ r <> ValidMsg
                 /\ main w args
                    = (linted ++ [OpenFile cf; OpenFile tf; LogRecord r;
                                  LogRecord (UnexpectedMsg e)],
                       inl (Exit 1)))
          \/ (exists cv tv,
                 load_file w cf (Some ft) = ([OpenFile cf], inr cv)
                 /\ load_file w tf (Some ft) = ([OpenFile tf], inr tv)
                 /\ main w args
                    = (linted ++ [OpenFile cf; OpenFile tf]
                       ++ map (fun f => LogRecord (ValidationMsg f))
                            (findings cv tv (strict args) (ignore_missing args))
                       ++ [LogRecord
                             match outcome cv tv (strict args)
                                     (ignore_missing args) with
                             | inr true => ValidMsg
                             | inr false => InvalidMsg
                             | inl e => UnexpectedMsg (ValidationError e)
                             end],
                       match outcome cv tv (strict args)
                               (ignore_missing args) with
                       | inr true => inr tt
                       | _ => inl (Exit 1)
                       end)))).
Proof.
  intros Hft. cbv zeta. rewrite (main_flow w args ft Hft). cbv zeta.
  unfold findings, outcome.
  destruct (lint_file_shape w (config_file args) ft) as (b & Hlint & _).
  set (lr := if lint args then lint_file w (config_file args) ft else _).
  assert (Hgo : (lint args = true /\ b = false
                 /\ lr = lint_file w (config_file args) ft)
                \/ ((lint args = true -> b = true)
                    /\ snd lr = inr true
                    /\ fst lr = (if lint args
                                 then fst (lint_file w (config_file args) ft)
                                 else []))).
  { subst lr. destruct (lint args); [ destruct b | ]; auto.
    right. split; [ discriminate | split; reflexivity ]. }
  clearbody lr.
  destruct Hgo as [ (Hl & -> & ->) | (Hpass & Hsnd & Hfst) ].
  { left. rewrite Hl, Hlint. auto. }
  right. split; [ intros Hl; rewrite Hlint, (Hpass Hl); reflexivity | ].
  rewrite Hsnd, Hfst.
  destruct (load_file_shape w (config_file args) ft)
    as [ (cv & Hc) | (ec & rc & Hc & Hrc) ].
  2:{ left. exists ec, rc. rewrite Hc. auto. }
  destruct (load_file_shape w (template_file args) ft)
    as [ (tv & Ht) | (et & rt & Ht & Hrt) ].
  2:{ right. left. exists cv, et, rt. rewrite Hc, Ht. auto. }
  right. right. exists cv, tv. rewrite Hc, Ht. cbn [fst snd].
  split; [ reflexivity | split; [ reflexivity | ] ].
  destruct (validate_config cv tv (strict args) (ignore_missing args))
    as [lv [e | [ | ] ] ]; cbn [fst snd];
    rewrite <- !app_assoc; reflexivity.
Qed.



(** X7. When linting is asked for and fails, the run stops there: the
    events are those of the linter followed by the one message that
    validation is aborted, no file is opened, no finding is logged, and the
    status is 1. *)
Theorem main_lint_gate (w : world) (args : Namespace) (ft : string) :
  main_file_type args = Some ft ->
  lint args = true ->
  snd (lint_file w (config_file args) ft) = inr false ->
  main w args
  = (trace (lint_file w (config_file args) ft) ++ [LogRecord LintAbortMsg],
     inl (Exit 1))
  /\ filter is_open (trace (main w args)) = [].
Proof.
  intros Hft Hl Hfail.
  assert (Hmain : main w args
                  = (trace (lint_file w (config_file args) ft)
                     ++ [LogRecord LintAbortMsg], inl (Exit 1))).
  { destruct (main_cases w args ft Hft) as [ (_ & _ & Hm) | (Hpass & _) ].
    - rewrite Hm, Hl. reflexivity.
    - rewrite (Hpass Hl) in Hfail. discriminate. }
  split; [ exact Hmain | ].
  rewrite Hmain. unfold trace. cbn [fst]. rewrite filter_app.
  destruct (lint_file_shape w (config_file args) ft) as (_ & _ & -> & _).
  reflexivity.
Qed.

Lemma main_lint_gate_witness :
  main strict_lint_world demo_args
  = (trace (lint_file strict_lint_world (config_file demo_args) "json")
     ++ [LogRecord LintAbortMsg],
     inl (Exit 1))
  /\ filter is_open (trace (main strict_lint_world demo_args)) = [].
Proof.
  apply (main_lint_gate strict_lint_world demo_args "json"); reflexivity.
Defined.

(** X8. The file type read off the name of the configuration file is the
    type both files are loaded with: the run is, event for event, the run
    with that type given on the command line.  The name of the template file
    plays no part in the choice. *)
Theorem main_inferred_type (w : world) (args : Namespace) (ft : string) :
  main_file_type args = Some ft ->
  main w args = main w (with_file_type args ft).
Proof.
  intros Hft.
  rewrite (main_resolved w args ft Hft).
  rewrite (main_resolved w (with_file_type args ft) ft eq_refl).
  reflexivity.
Qed.

Lemma main_inferred_type_witness :
  main demo_world demo_args = main demo_world (with_file_type demo_args "json").
Proof. apply (main_inferred_type demo_world demo_args "json"). reflexivity. Defined.



Lemma not_dict_raises (c t : value) (s im : bool) :
  isinstance_dict t = false ->
  validate_config c t s im = ([], inl AttributeError).
Proof. destruct t; try reflexivity. discriminate. Qed.

(** X10. When both files load and the root of the template is not a
    mapping, the run logs no finding: after the two files are opened it logs
    the exception of [validate_config] as an unexpected error and ends with
    status 1. *)
Theorem main_template_not_mapping (w : world) (args : Namespace) (ft : string)
    (config_data template_data : value) :
  main_file_type args = Some ft ->
  lint args = false \/ snd (lint_file w (config_file args) ft) = inr true ->
  snd (load_file w (config_file args) (Some ft)) = inr config_data ->
  snd (load_file w (template_file args) (Some ft)) = inr template_data ->
  isinstance_dict template_data = false ->
  main w args
  = (linted w args ft
     ++ [OpenFile (config_file args); OpenFile (template_file args);
         LogRecord (UnexpectedMsg (ValidationError AttributeError))],
     inl (Exit 1)).
Proof.
  intros Hft Hlint Hc Ht Hshape. unfold linted, trace.
  destruct (main_cases w args ft Hft)
    as [ (Hl & Hfail & _)
       | (_ & [ (e & r & Hc' & _)
              | [ (cv & e & r & _ & Ht' & _)
                | (cv & tv & Hc' & Ht' & ->) ] ]) ].
  - destruct Hlint as [Hlint | Hlint]; [ rewrite Hl in Hlint | rewrite Hfail in Hlint ];
      discriminate.
  - rewrite Hc' in Hc. discriminate.
  - rewrite Ht' in Ht. discriminate.
  - rewrite Hc' in Hc. rewrite Ht' in Ht.
    injection Hc as ->. injection Ht as ->.
    unfold findings, outcome.
    rewrite (not_dict_raises config_data template_data _ _ Hshape).
    reflexivity.
Qed.

Lemma main_template_not_mapping_witness :
  main list_template_world demo_args
  = (linted list_template_world demo_args "json"
     ++ [OpenFile (config_file demo_args); OpenFile (template_file demo_args);
         LogRecord (UnexpectedMsg (ValidationError AttributeError))],
     inl (Exit 1)).
Proof.
  apply (main_template_not_mapping list_template_world demo_args "json"
           (VDict [("port", VInt 443)]) (VList [VInt 0]));
    try reflexivity.
  right. reflexivity.
Defined.

(** X11. When the configuration file fails to load, the template file is
    not opened: the failure is logged by [load_file], logged again by [main]
    as an unexpected error, and the status is 1. *)
Theorem main_config_load_failure (w : world) (args : Namespace) (ft : string)
    (e : error) :
  main_file_type args = Some ft ->
  lint args = false \/ snd (lint_file w (config_file args) ft) = inr true ->
  snd (load_file w (config_file args) (Some ft)) = inl (Raised e) ->
  main w args
  = (linted w args ft
     ++ trace (load_file w (config_file args) (Some ft))
     ++ [LogRecord (UnexpectedMsg e)],
     inl (Exit 1))
  /\ filter is_open (trace (main w args)) = [OpenFile (config_file args)].
Proof.
  intros Hft Hlint Hc.
  assert (Hmain : exists r,
            load_file w (config_file args) (Some ft)
            = ([OpenFile (config_file args); LogRecord r], inl (Raised e))
            /\ main w args
               = (linted w args ft
                  ++ [OpenFile (config_file args); LogRecord r;
                      LogRecord (UnexpectedMsg e)],
                  inl (Exit 1))).
  { unfold linted, trace.
    destruct (main_cases w args ft Hft)
      as [ (Hl & Hfail & _)
         | (_ & [ (e' & r & Hc' & _ & Hm)
                | [ (cv & e' & r & Hc' & _)
                  | (cv & tv & Hc' & _) ] ]) ].
    - destruct Hlint as [Hlint | Hlint];
        [ rewrite Hl in Hlint | rewrite Hfail in Hlint ]; discriminate.
    - exists r. rewrite Hc' in Hc. injection Hc as <-. auto.
    - rewrite Hc' in Hc. discriminate.
    - rewrite Hc' in Hc. discriminate. }
  destruct Hmain as (r & Hload & Hmain). rewrite Hmain, Hload. unfold trace.
  split; [ reflexivity | ].
  cbn [fst]. rewrite filter_app. unfold linted, trace.
  destruct (lint args); [ | reflexivity ].
  destruct (lint_file_shape w (config_file args) ft) as (_ & _ & -> & _).
  reflexivity.
Qed.

Lemma main_config_load_failure_witness :
  main demo_world (with_file_type demo_args "yaml")
  = (linted demo_world (with_file_type demo_args "yaml") "yaml"
     ++ trace (load_file demo_world "cfg.json" (Some "yaml"))
     ++ [LogRecord (UnexpectedMsg YAMLError)],
     inl (Exit 1))
  /\ filter is_open (trace (main demo_world (with_file_type demo_args "yaml")))
     = [OpenFile "cfg.json"].
Proof.
  apply (main_config_load_failure demo_world (with_file_type demo_args "yaml")
           "yaml" YAMLError); try reflexivity.
  right. reflexivity.
Defined.

(** X12. The only processes a run starts are the linter on the
    configuration file, and only when linting is asked for: the template
    file is never linted. *)
Theorem main_lints_config_only (w : world) (args : Namespace)
    (argv : list string) :
  In (RunProcess argv) (trace (main w args)) ->
  lint args = true
  /\ (argv = ["yamllint"; config_file args]
      \/ argv = ["jsonlint"; "-q"; config_file args]).
Proof.
  destruct (main_file_type args) as [ft | ] eqn:Hft.
  2:{ rewrite (main_unresolved w args Hft). intros []. }
  assert (Hlinted : In (RunProcess argv)
                       (if lint args
                        then fst (lint_file w (config_file args) ft) else []) ->
                    lint args = true
                    /\ (argv = ["yamllint"; config_file args]
                        \/ argv = ["jsonlint"; "-q"; config_file args])).
  { destruct (lint args); [ | intros [] ].
    destruct (lint_file_shape w (config_file args) ft) as (_ & _ & _ & _ & H).
    intros Hin. split; [ reflexivity | exact (H argv Hin) ]. }
  unfold trace.
  destruct (main_cases w args ft Hft)
    as [ (_ & _ & ->)
       | (_ & [ (e & r & _ & _ & ->)
              | [ (cv & e & r & _ & _ & _ & ->)
                | (cv & tv & _ & _ & ->) ] ]) ]; cbn [fst];
    intros H; apply in_app_or in H; cbn [app] in H;
    destruct H as [H | H]; auto.
  - destruct H as [ [=] | [] ].
  - destruct H as [ [=] | [ [=] | [ [=] | [] ] ] ].
  - destruct H as [ [=] | [ [=] | [ [=] | [ [=] | [] ] ] ] ].
  - destruct H as [ [=] | [ [=] | H ] ].
    apply in_app_or in H. destruct H as [H | [ [=] | [] ] ].
    apply in_map_iff in H. destruct H as (f & [=] & _).
Qed.

Lemma main_lints_config_only_witness :
  lint demo_args = true
  /\ (["jsonlint"; "-q"; "cfg.json"] = ["yamllint"; config_file demo_args]
      \/ ["jsonlint"; "-q"; "cfg.json"] = ["jsonlint"; "-q"; config_file demo_args]).
Proof.
  apply (main_lints_config_only demo_world demo_args ["jsonlint"; "-q"; "cfg.json"]).
  left. reflexivity.
Defined.

(** ** The flag *)

Lemma walk_conforms (s im : bool) (c t : dict) :
  snd (walk s im (VDict t) c) = conforms s (VDict t) c.
Proof.
  revert c t.
  apply (nested_induction
           (fun c t => snd (walk s im (VDict t) c) = conforms s (VDict t) c)).
  intros c t IH. cbn [walk snd conforms].
  apply forallb_ext_in. intros [key tv] Hin.
  unfold entry_out. cbn [fst snd].
  destruct (lookup key c) as [cv | ] eqn:Hc.
  - destruct tv; cbn [isinstance_dict];
      try (unfold scalar_out; destruct (pytype_eqb _ _); reflexivity).
    destruct cv; try reflexivity.
    exact (IH _ _ _ Hin Hc).
  - unfold missing_out. destruct s, im; reflexivity.
Qed.

(** X13. On dictionaries the flag [validate_config] returns says exactly
    whether the configuration has the shape of the template: every template
    key is present (or strict mode is off), nested dictionaries match
    dictionaries recursively, and every other value has the runtime type of
    the template's value. *)
Theorem verdict_is_conformance (c t : dict) (s im : bool) :
  outcome (VDict c) (VDict t) s im = inr (conforms s (VDict t) c).
Proof. rewrite outcome_dict, walk_conforms. reflexivity. Qed.

(** X14. On dictionaries [ignore_missing] changes what is logged, never the
    flag returned. *)
Theorem verdict_ignores_ignore_missing (c t : dict) (s : bool) :
  outcome (VDict c) (VDict t) s true = outcome (VDict c) (VDict t) s false.
Proof. rewrite !outcome_dict, !walk_conforms. reflexivity. Qed.

(** ** The log under the four policies *)

Lemma flat_map_flat_map {A B C} (f : A -> list B) (g : B -> list C)
    (l : list A) :
  flat_map g (flat_map f l) = flat_map (fun x => flat_map g (f x)) l.
Proof.
  induction l as [ | x l IH ]; [ reflexivity | ].
  cbn [flat_map]. rewrite flat_map_app, IH. reflexivity.
Qed.

Lemma under_policy_extra_keys (s im : bool) (c t : dict) :
  flat_map (under_policy s im) (extra_keys c t) = extras s im c t.
Proof.
  unfold extras, extra_keys.
  induction (filter (fun k => negb (mem k t)) (keys c)) as [ | k l IH ].
  - destruct (negb s && negb im); reflexivity.
  - cbn [map flat_map under_policy]. rewrite IH.
    destruct (negb s && negb im); reflexivity.
Qed.

Lemma walk_under_policy (s im : bool) (c t : dict) :
  fst (walk s im (VDict t) c)
  = flat_map (under_policy s im) (fst (walk false false (VDict t) c)).
Proof.
  revert c t.
  apply (nested_induction
           (fun c t => fst (walk s im (VDict t) c)
                       = flat_map (under_policy s im)
                           (fst (walk false false (VDict t) c)))).
  intros c t IH. cbn [walk fst].
  rewrite flat_map_app, flat_map_flat_map.
  change (extras false false c t) with (extra_keys c t).
  rewrite under_policy_extra_keys. f_equal.
  apply flat_map_agree. intros [key tv] Hin.
  unfold entry_out. cbn [fst snd].
  destruct (lookup key c) as [cv | ] eqn:Hc.
  - destruct tv; cbn [isinstance_dict];
      try (unfold scalar_out; destruct (pytype_eqb _ _); reflexivity).
    destruct cv; try reflexivity.
    exact (IH _ _ _ Hin Hc).
  - unfold missing_out. destruct s, im; reflexivity.
Qed.

(** X15. The log of the default run determines the log under every policy:
    under strict mode each missing-key warning becomes the strict-mode
    error, under [ignore_missing] alone it disappears, the extra-key
    warnings disappear under either flag, and the type mismatches stay, all
    in the same order. *)
Theorem findings_under_policy (c t : dict) (s im : bool) :
  findings (VDict c) (VDict t) s im
  = flat_map (under_policy s im) (findings (VDict c) (VDict t) false false).
Proof. rewrite !findings_dict. apply walk_under_policy. Qed.

(** Every record of a default run is one of the five the code can log. *)
Lemma default_records (c t : dict) :
  forallb (fun f => match f with
                    | (WARNING, MissingMsg _) | (WARNING, ExtraKeyMsg _)
                    | (ERROR, ExpectedDictMsg _ _)
                    | (ERROR, TypeMismatchMsg _ _ _) => true
                    | _ => false
                    end)
    (fst (walk false false (VDict t) c)) = true.
Proof. apply forallb_findings; try reflexivity. intros. apply forallb_extras. reflexivity. Qed.

(** X16. With [ignore_missing] set and [strict] unset the log is the log of
    the default run with its warnings left out: exactly the ERROR records, in
    the same order. *)
Theorem ignore_missing_keeps_errors (c t : dict) :
  findings (VDict c) (VDict t) false true
  = filter is_error (findings (VDict c) (VDict t) false false).
Proof.
  rewrite !findings_dict, (walk_under_policy false true).
  pose proof (default_records c t) as Hall.
  induction (fst (walk false false (VDict t) c)) as [ | f l IH ];
    [ reflexivity | ].
  cbn [forallb] in Hall. apply andb_true_iff in Hall. destruct Hall as [Hf Hl].
  cbn [flat_map filter]. rewrite (IH Hl).
  destruct f as [ [ | ] [ | | | | ] ]; try discriminate; reflexivity.
Qed.

(** ** Only keys and types matter *)

Lemma type_of_shape (v : value) : type_of (shape_of v) = type_of v.
Proof. destruct v; reflexivity. Qed.

Lemma isinstance_dict_shape (v : value) :
  isinstance_dict (shape_of v) = isinstance_dict v.
Proof. destruct v; reflexivity. Qed.

Lemma lookup_shape (key : string) (d : dict) :
  lookup key (map (fun kv => (fst kv, shape_of (snd kv))) d)
  = option_map shape_of (lookup key d).
Proof.
  induction d as [ | [k v] d IH ]; [ reflexivity | ].
  cbn [map lookup fst snd]. destruct (String.eqb key k); [ reflexivity | exact IH ].
Qed.

Lemma keys_shape (d : dict) :
  keys (map (fun kv => (fst kv, shape_of (snd kv))) d) = keys d.
Proof. unfold keys. rewrite map_map. reflexivity. Qed.

Lemma mem_shape (key : string) (d : dict) :
  mem key (map (fun kv => (fst kv, shape_of (snd kv))) d) = mem key d.
Proof. unfold mem. rewrite lookup_shape. destruct (lookup key d); reflexivity. Qed.

Lemma extras_shape (s im : bool) (c t : dict) :
  extras s im (map (fun kv => (fst kv, shape_of (snd kv))) c)
              (map (fun kv => (fst kv, shape_of (snd kv))) t)
  = extras s im c t.
Proof.
  unfold extras, extra_keys. rewrite keys_shape.
  destruct (negb s && negb im); [ | reflexivity ]. f_equal.
  apply filter_ext. intros k. rewrite mem_shape. reflexivity.
Qed.

Lemma forallb_of_map {A B} (f : B -> bool) (g : A -> B) (l : list A) :
  forallb f (map g l) = forallb (fun x => f (g x)) l.
Proof.
  induction l as [ | x l IH ]; [ reflexivity | ].
  cbn [map forallb]. rewrite IH. reflexivity.
Qed.

Lemma walk_shape (s im : bool) (tv : value) :
  forall t, tv = VDict t ->
  forall c,
    walk s im (shape_of tv) (map (fun kv => (fst kv, shape_of (snd kv))) c)
    = walk s im tv c.
Proof.
  induction tv as [ | | | | | | entries IH ] using value_induction;
    try discriminate.
  intros t _ c. cbn [shape_of walk]. rewrite extras_shape.
  rewrite Forall_forall in IH.
  assert (Hentry : forall kv, In kv entries ->
            entry_out (walk s im) s im
              (map (fun kv => (fst kv, shape_of (snd kv))) c)
              (fst kv, shape_of (snd kv))
            = entry_out (walk s im) s im c kv).
  { intros [key v] Hin. unfold entry_out. cbn [fst snd].
    rewrite lookup_shape, isinstance_dict_shape.
    destruct (lookup key c) as [cv | ]; cbn [option_map]; [ | reflexivity ].
    destruct (isinstance_dict v) eqn:Hv.
    - destruct v as [ | | | | | | t' ]; try discriminate.
      destruct cv as [ | | | | | | c' ]; try reflexivity.
      cbn [shape_of]. exact (IH _ Hin t' eq_refl c').
    - unfold scalar_out. rewrite !type_of_shape. reflexivity. }
  f_equal.
  - f_equal. rewrite flat_map_concat_map, map_map, <- flat_map_concat_map.
    apply flat_map_agree. intros kv Hin. cbn [fst snd].
    rewrite (Hentry kv Hin). reflexivity.
  - rewrite forallb_of_map. apply forallb_ext_in. intros kv Hin.
    rewrite (Hentry kv Hin). reflexivity.
Qed.

(** X17. A dictionary run depends on the two documents only through their
    keys and the runtime types of their values: with every scalar replaced by
    a fixed value of its type and every list emptied, in both documents, the
    log and the flag are the same. *)
Theorem only_shape_matters (c t : dict) (s im : bool) :
  validate_config (shape_of (VDict c)) (shape_of (VDict t)) s im
  = validate_config (VDict c) (VDict t) s im.
Proof.
  cbn [shape_of]. rewrite !validate_config_dict.
  rewrite <- (walk_shape s im (VDict t) t eq_refl c). reflexivity.
Qed.

(** ** Empty documents *)


(** ** A list at the root of the configuration *)

Lemma template_loop_list_hit (rec : value -> value -> M bool)
    (items : list value) (s im : bool) (key : string) (t : dict) :
  In key (keys t) ->
  In (VStr key) items ->
  forall valid,
    snd (template_loop rec (VList items) s im t valid) = inl TypeError.
Proof.
  intros Hkey Hitem.
  assert (Hin : existsb (str_eq_value key) items = true).
  { apply existsb_exists. exists (VStr key). split; [ exact Hitem | ].
    apply String.eqb_refl. }
  induction t as [ | [k tv] t IH ]; [ destruct Hkey | ].
  intros valid. cbn [template_loop]. unfold check_entry.
  cbn [contains]. rewrite bind_ret.
  destruct (existsb (str_eq_value k) items) eqn:Hk; cbn [negb].
  - reflexivity.
  - assert (Hrest : In key (keys t)).
    { destruct Hkey as [Heq | Hrest]; [ | exact Hrest ].
      cbn [fst] in Heq. subst k. rewrite Hin in Hk. discriminate. }
    destruct s; [ | destruct im; cbn [negb] ].
    + rewrite bind_logging. cbn [ret fst snd].
      change (bind ([(ERROR, MissingStrictMsg k)], inr false)
                (fun valid' => template_loop rec (VList items) true im t valid'))
        with (bind ([(ERROR, MissingStrictMsg k)], inr false)
                (template_loop rec (VList items) true im t)).
      rewrite bind_ok. cbn [snd]. apply (IH Hrest).
    + rewrite bind_ret. apply (IH Hrest).
    + rewrite bind_logging. cbn [ret fst snd].
      change (bind ([(WARNING, MissingMsg k)], inr valid)
                (fun valid' => template_loop rec (VList items) false false t valid'))
        with (bind ([(WARNING, MissingMsg k)], inr valid)
                (template_loop rec (VList items) false false t)).
      rewrite bind_ok. cbn [snd]. apply (IH Hrest).
Qed.

(** X19. When the root of the configuration is a list that holds, as a text
    element, one of the keys of the template, the run raises TypeError (the
    list is subscripted with that key) whatever the policy. *)
Theorem list_root_with_key_raises (items : list value) (t : dict)
    (key : string) (s im : bool) :
  In key (keys t) ->
  In (VStr key) items ->
  outcome (VList items) (VDict t) s im = inl TypeError.
Proof.
  intros Hkey Hitem. unfold outcome. cbn [validate_config].
  pose proof (template_loop_list_hit
                (fun cv tv => validate_config cv tv s im)
                items s im key t Hkey Hitem true) as Hloop.
  destruct (template_loop (fun cv tv => validate_config cv tv s im)
              (VList items) s im t true) as [l r].
  cbn [snd] in Hloop. subst r. reflexivity.
Qed.

Lemma list_root_with_key_raises_witness :
  outcome (VList [VInt 1; VStr "port"])
          (VDict [("host", VStr ""); ("port", VInt 0)]) false false
  = inl TypeError.
Proof.
  apply (list_root_with_key_raises
           [VInt 1; VStr "port"] [("host", VStr ""); ("port", VInt 0)] "port");
    cbn; auto.
Defined.

(** X20. When the linter stage passes and both files load, the run logs every
    record of [validate_config], unchanged and in order, after the two files
    are opened, and then one closing message: valid, invalid, or the
    exception of the validator as an unexpected error. *)
Theorem main_reports_findings (w : world) (args : Namespace) (ft : string)
    (config_data template_data : value) :
  main_file_type args = Some ft ->
  lint args = false \/ snd (lint_file w (config_file args) ft) = inr true ->
  snd (load_file w (config_file args) (Some ft)) = inr config_data ->
  snd (load_file w (template_file args) (Some ft)) = inr template_data ->
  trace (main w args)
  = linted w args ft
    ++ [OpenFile (config_file args); OpenFile (template_file args)]
    ++ map (fun f => LogRecord (ValidationMsg f))
         (findings config_data template_data (strict args) (ignore_missing args))
    ++ [LogRecord
          match outcome config_data template_data
                  (strict args) (ignore_missing args) with
          | inr true => ValidMsg
          | inr false => InvalidMsg
          | inl e => UnexpectedMsg (ValidationError e)
          end].
Proof.
  intros Hft Hlint Hc Ht. unfold linted, trace.
  destruct (main_cases w args ft Hft)
    as [ (Hl & Hfail & _)
       | (_ & [ (e & r & Hc' & _)
              | [ (cv & e & r & _ & Ht' & _)
                | (cv & tv & Hc' & Ht' & ->) ] ]) ].
  - destruct Hlint as [Hlint | Hlint];
      [ rewrite Hl in Hlint | rewrite Hfail in Hlint ]; discriminate.
  - rewrite Hc' in Hc. discriminate.
  - rewrite Ht' in Ht. discriminate.
  - rewrite Hc' in Hc. rewrite Ht' in Ht.
    injection Hc as ->. injection Ht as ->. reflexivity.
Qed.

Lemma main_reports_findings_witness :
  trace (main demo_world (with_file_type demo_args "json"))
  = linted demo_world (with_file_type demo_args "json") "json"
    ++ [OpenFile "cfg.json"; OpenFile "tpl.json"]
    ++ map (fun f => LogRecord (ValidationMsg f))
         (findings (VDict [("port", VInt 443)]) (VDict [("port", VInt 0)])
                   false false)
    ++ [LogRecord
          match outcome (VDict [("port", VInt 443)]) (VDict [("port", VInt 0)])
                  false false with
          | inr true => ValidMsg
          | inr false => InvalidMsg
          | inl e => UnexpectedMsg (ValidationError e)
          end].
Proof.
  apply (main_reports_findings demo_world (with_file_type demo_args "json")
           "json" (VDict [("port", VInt 443)]) (VDict [("port", VInt 0)]));
    try reflexivity.
  right. reflexivity.
Defined.
